(** * uinput: the binary protocol layer of the virtual input device package

    A shallow embedding of [uinputdefs.go] and of the protocol functions of
    [uinput.go]: the 24-byte event codec, the force-feedback effect record
    and its union accessors, the event writer, the device teardown and the
    force-feedback exchange with the kernel.

    Fixed-width Go integers are [Z] with the conversion wrap-around written
    out; byte buffers are [list byte]; the little-endian codec is coqutil's
    [le_split] / [le_combine]. *)

From Stdlib Require Import String ZArith List Lia.
From coqutil Require Import Byte Word.LittleEndianList.
Import ListNotations.
Local Open Scope Z_scope.

(** ** Fixed-width integers and conversions *)

Module GoInt.

(** [uintN(x)]: keep the low [n] bits. *)
Definition to_unsigned (bits : Z) (x : Z) : Z := x mod 2 ^ bits.

(** [intN(x)]: keep the low [n] bits and read them as two's complement. *)
Definition to_signed (bits : Z) (x : Z) : Z :=
  (x + 2 ^ (bits - 1)) mod 2 ^ bits - 2 ^ (bits - 1).

Definition uint16 := to_unsigned 16.
Definition uint32 := to_unsigned 32.
Definition int16 := to_signed 16.
Definition int32 := to_signed 32.
Definition int64 := to_signed 64.

Definition is_uint16 (x : Z) : Prop := 0 <= x < 2 ^ 16.
Definition is_int32 (x : Z) : Prop := - 2 ^ 31 <= x < 2 ^ 31.
Definition is_int64 (x : Z) : Prop := - 2 ^ 63 <= x < 2 ^ 63.

End GoInt.
Import GoInt.

(** ** Constants of uinputdefs.go *)

Definition uiDevDestroy : Z := 0x5502.
Definition uiBeginFFUpload : Z := 0xc06855c8.
Definition uiEndFFUpload : Z := 0x406855c9.
Definition uiBeginFFErase : Z := 0xc00c55ca.
Definition uiEndFFErase : Z := 0x400c55cb.

Definition evSyn : Z := 0x00.
Definition evKey : Z := 0x01.
Definition synReport : Z := 0.

Definition btnStateReleased : Z := 0.
Definition btnStatePressed : Z := 1.

Definition evUinput : Z := 0x0101.
Definition uiFFUpload : Z := 1.
Definition uiFFErase : Z := 2.

(** ** Go error values

    Only the shape the code builds is kept: an errno from a system call, the
    two errors of [io.ReadFull], an error reported by the file object, and
    [fmt.Errorf("<prefix>: %v", err)] wrapping. *)

Inductive error : Type :=
| Errno (code : Z)
| ErrEOF
| ErrUnexpectedEOF
| FileError (msg : string)
| ErrorString (msg : string)
| Errorf (prefix : string) (cause : error).

(** ** The input event record and its codec *)

(** [syscall.Timeval] on a 64-bit Linux target: two 64-bit signed fields. *)
Record Timeval : Type := mkTimeval { Sec : Z; Usec : Z }.

Record inputEvent : Type := mkInputEvent {
  Time : Timeval;
  Type_ : Z;   (* uint16 *)
  Code : Z;    (* uint16 *)
  Value : Z    (* int32 *)
}.

Definition wf_inputEvent (e : inputEvent) : Prop :=
  is_int64 (Sec (Time e)) /\ is_int64 (Usec (Time e)) /\
  is_uint16 (Type_ e) /\ is_uint16 (Code e) /\ is_int32 (Value e).

Definition inputEventSize : nat := 24.

(** [binary.Write(buf, binary.LittleEndian, iev)]: the fields in declaration
    order, each little-endian, without padding. A fixed-size struct never
    makes [binary.Write] fail on a [bytes.Buffer]. *)
Definition binary_Write_inputEvent (iev : inputEvent) : list byte * option error :=
  (le_split 8 (Sec (Time iev)) ++ le_split 8 (Usec (Time iev)) ++
   le_split 2 (Type_ iev) ++ le_split 2 (Code iev) ++ le_split 4 (Value iev),
   None).

(** Bytes [off, off+n) of a buffer. *)
Definition slice (off n : nat) (buf : list byte) : list byte :=
  firstn n (skipn off buf).

(** The fields of a buffer of at least 24 bytes, in declaration order, each
    little-endian; the signed ones are read as two's complement. *)
Definition decodeFields (buffer : list byte) : inputEvent :=
  mkInputEvent
    (mkTimeval (int64 (le_combine (slice 0 8 buffer)))
               (int64 (le_combine (slice 8 8 buffer))))
    (le_combine (slice 16 2 buffer))
    (le_combine (slice 18 2 buffer))
    (int32 (le_combine (slice 20 4 buffer))).

(** [binary.Read(buf, binary.LittleEndian, &iev)]: [io.ReadFull] of 24 bytes
    ([io.EOF] on an empty buffer, [io.ErrUnexpectedEOF] on a short one), then
    the fields decoded in order. *)
Definition binary_Read_inputEvent (buffer : list byte) : inputEvent * option error :=
  let zero := mkInputEvent (mkTimeval 0 0) 0 0 0 in
  match buffer with
  | [] => (zero, Some ErrEOF)
  | _ =>
    if (length buffer <? inputEventSize)%nat then (zero, Some ErrUnexpectedEOF)
    else (decodeFields buffer, None)
  end.

(** The returned slice is [nil] (here [[]]) on the error path. *)
Definition inputEventToBuffer (iev : inputEvent) : list byte * option error :=
  let '(buf, err) := binary_Write_inputEvent iev in
  match err with
  | Some e => ([], Some (Errorf "failed to write input event to buffer" e))
  | None => (buf, None)
  end.

Definition inputEventFromBuffer (buffer : list byte) : option inputEvent * option error :=
  let '(iev, err) := binary_Read_inputEvent buffer in
  match err with
  | Some e => (None, Some (Errorf "failed to read buffer to input event" e))
  | None => (Some iev, None)
  end.


(** ** Struct layout

    Sizes, alignments and field offsets as the Go compiler computes them
    (the [StdSizes] rules of go/types): a basic type is aligned to its size,
    capped by the platform's maximal alignment; an array to its element; a
    struct to its widest field; each field sits at the next offset that is a
    multiple of its alignment, and a struct's size is rounded up to its
    alignment. *)

Module Layout.

#[local] Set Warnings "-register-all".
Inductive GoType : Type :=
| TUint8 | TUint16 | TInt16 | TUint32 | TInt32 | TInt64
| TPointer
| TArray (n : nat) (elem : GoType)
| TStruct (fields : list (string * GoType)).

Record Platform : Type := mkPlatform { wordSize : nat; maxAlign : nat }.

Definition amd64 : Platform := mkPlatform 8 8.
Definition i386 : Platform := mkPlatform 4 4.

Definition clamp (p : Platform) (n : nat) : nat :=
  Nat.max 1 (Nat.min n (maxAlign p)).

(** The least multiple of [a] that is at least [off]. *)
Definition align_up (off a : nat) : nat := ((off + a - 1) / a * a)%nat.

Fixpoint alignof (p : Platform) (t : GoType) {struct t} : nat :=
  match t with
  | TUint8 => 1
  | TUint16 | TInt16 => clamp p 2
  | TUint32 | TInt32 => clamp p 4
  | TInt64 => clamp p 8
  | TPointer => clamp p (wordSize p)
  | TArray _ e => alignof p e
  | TStruct fs =>
    (fix widest (l : list (string * GoType)) : nat :=
       match l with
       | [] => 1
       | (_, ft) :: r => Nat.max (alignof p ft) (widest r)
       end) fs
  end%nat.

Fixpoint sizeof (p : Platform) (t : GoType) {struct t} : nat :=
  match t with
  | TUint8 => 1
  | TUint16 | TInt16 => 2
  | TUint32 | TInt32 => 4
  | TInt64 => 8
  | TPointer => wordSize p
  | TArray n e => n * sizeof p e
  | TStruct fs =>
    align_up
      ((fix place (off : nat) (l : list (string * GoType)) : nat :=
          match l with
          | [] => off
          | (_, ft) :: r => place (align_up off (alignof p ft) + sizeof p ft) r
          end) 0 fs)
      (alignof p (TStruct fs))
  end%nat.

(** Name, offset and size of every field, in declaration order. *)
Fixpoint place_fields (p : Platform) (off : nat) (fs : list (string * GoType))
  : list (string * nat * nat) :=
  match fs with
  | [] => []
  | (name, ft) :: r =>
    let o := align_up off (alignof p ft) in
    (name, o, sizeof p ft) :: place_fields p (o + sizeof p ft)%nat r
  end.

Definition fields_of (t : GoType) : list (string * GoType) :=
  match t with TStruct fs => fs | _ => [] end.

Definition field_layout (p : Platform) (t : GoType) : list (string * nat * nat) :=
  place_fields p 0 (fields_of t).

(** [unsafe.Offsetof(x.name)]. *)
Definition offsetof (p : Platform) (t : GoType) (name : string) : option nat :=
  match find (fun f => String.eqb (fst (fst f)) name) (field_layout p t) with
  | Some (_, o, _) => Some o
  | None => None
  end.

End Layout.
Import Layout.

(** The struct types of uinputdefs.go. *)

Definition tFFReplay : GoType :=
  TStruct [("Length", TUint16); ("Delay", TUint16)]%string.

Definition tFFTrigger : GoType :=
  TStruct [("Button", TUint16); ("Interval", TUint16)]%string.

Definition tFFEnvelope : GoType :=
  TStruct [("AttackLength", TUint16); ("AttackLevel", TUint16);
           ("FadeLength", TUint16); ("FadeLevel", TUint16)]%string.

Definition tFFConstantEffect : GoType :=
  TStruct [("Level", TInt16); ("Envelope", tFFEnvelope)]%string.

Definition tFFRampEffect : GoType :=
  TStruct [("StartLevel", TInt16); ("EndLevel", TInt16); ("Envelope", tFFEnvelope)]%string.

Definition tFFConditionEffect : GoType :=
  TStruct [("RightSaturation", TUint16); ("LeftSaturation", TUint16);
           ("RightCoeff", TInt16); ("LeftCoeff", TInt16);
           ("Deadband", TUint16); ("Center", TInt16)]%string.

Definition tFFPeriodicEffect : GoType :=
  TStruct [("Waveform", TUint16); ("Period", TUint16); ("Magnitude", TInt16);
           ("Offset", TInt16); ("Phase", TUint16); ("Envelope", tFFEnvelope);
           ("CustomLen", TUint32); ("CustomData", TPointer)]%string.

Definition tFFRumbleEffect : GoType :=
  TStruct [("StrongMagnitude", TUint16); ("WeakMagnitude", TUint16)]%string.

Definition tFFEffect : GoType :=
  TStruct [("Type", TUint16); ("ID", TInt16); ("Direction", TUint16);
           ("Trigger", tFFTrigger); ("Replay", tFFReplay);
           ("_", TUint16); ("u", TArray 32 TUint8)]%string.

(** ** The force-feedback effect record *)

Record FFReplay : Type := mkFFReplay { Length : Z; Delay : Z }.

Record FFTrigger : Type := mkFFTrigger { Button : Z; Interval : Z }.

Record FFConditionEffect : Type := mkFFConditionEffect {
  RightSaturation : Z;  (* uint16 *)
  LeftSaturation : Z;   (* uint16 *)
  RightCoeff : Z;       (* int16 *)
  LeftCoeff : Z;        (* int16 *)
  Deadband : Z;         (* uint16 *)
  Center : Z            (* int16 *)
}.

Record FFRumbleEffect : Type := mkFFRumbleEffect {
  StrongMagnitude : Z;  (* uint16 *)
  WeakMagnitude : Z     (* uint16 *)
}.

(** [u] is the [[32]byte] union payload; [blank] is the [_ uint16] padding
    field. *)
Record FFEffect : Type := mkFFEffect {
  Type' : Z;        (* uint16 *)
  ID : Z;           (* int16 *)
  Direction : Z;    (* uint16 *)
  Trigger : FFTrigger;
  Replay : FFReplay;
  blank : Z;
  u : list byte
}.

Definition payloadSize : nat := 32.

Definition wf_FFEffect (ff : FFEffect) : Prop := length (u ff) = payloadSize.

(** The zero value [FFEffect{}]. *)
Definition zeroFFEffect : FFEffect :=
  mkFFEffect 0 0 0 (mkFFTrigger 0 0) (mkFFReplay 0 0) 0 (repeat Byte.x00 payloadSize).

(** The record as it lies in memory (little-endian target), and back: this is
    the view the kernel has of it. *)
Definition FFEffect_to_bytes (ff : FFEffect) : list byte :=
  le_split 2 (Type' ff) ++ le_split 2 (ID ff) ++ le_split 2 (Direction ff) ++
  le_split 2 (Button (Trigger ff)) ++ le_split 2 (Interval (Trigger ff)) ++
  le_split 2 (Length (Replay ff)) ++ le_split 2 (Delay (Replay ff)) ++
  le_split 2 (blank ff) ++ u ff.

Definition FFEffect_of_bytes (raw : list byte) : FFEffect :=
  mkFFEffect
    (le_combine (slice 0 2 raw))
    (int16 (le_combine (slice 2 2 raw)))
    (le_combine (slice 4 2 raw))
    (mkFFTrigger (le_combine (slice 6 2 raw)) (le_combine (slice 8 2 raw)))
    (mkFFReplay (le_combine (slice 10 2 raw)) (le_combine (slice 12 2 raw)))
    (le_combine (slice 14 2 raw))
    (slice 16 payloadSize raw).

(** *** Reinterpreting the payload

    Casting the address of [ff.u[i]] to a pointer to [T] and dereferencing
    it loads [sizeof T] bytes starting at [u[i]] and reads the fields of [T]
    at their offsets. *)

Definition load_uint16 (mem : list byte) (off : nat) : Z :=
  le_combine (slice off 2 mem).

Definition load_int16 (mem : list byte) (off : nat) : Z :=
  int16 (le_combine (slice off 2 mem)).

Definition load_FFRumbleEffect (mem : list byte) (off : nat) : FFRumbleEffect :=
  mkFFRumbleEffect (load_uint16 mem off) (load_uint16 mem (off + 2)).

Definition load_FFConditionEffect (mem : list byte) (off : nat) : FFConditionEffect :=
  mkFFConditionEffect
    (load_uint16 mem off) (load_uint16 mem (off + 2))
    (load_int16 mem (off + 4)) (load_int16 mem (off + 6))
    (load_uint16 mem (off + 8)) (load_int16 mem (off + 10)).

Definition Rumble (ff : FFEffect) : FFRumbleEffect :=
  load_FFRumbleEffect (u ff) 0.

Definition Condition (ff : FFEffect) : FFConditionEffect * FFConditionEffect :=
  let r0 := load_FFConditionEffect (u ff) 0 in
  let r1 := load_FFConditionEffect (u ff) 16 in
  (r0, r1).

(** The byte ranges [lo, hi) of the record that an accessor loads: a load of
    a [T] at [&ff.u[i]] covers [sizeof T] bytes from [offsetof u + i]. *)
Definition load_range (p : Platform) (t : GoType) (i : nat) : nat * nat :=
  let base := match offsetof p tFFEffect "u" with Some o => o | None => 0 end%nat in
  ((base + i)%nat, (base + i + sizeof p t)%nat).

Definition Rumble_ranges (p : Platform) : list (nat * nat) :=
  [load_range p tFFRumbleEffect 0].

(** ** Force-feedback requests of uinput.h *)

Module UInputFFUpload.
Record t : Type := mk {
  RequestID : Z;     (* uint32 *)
  ReturnValue : Z;   (* int32 *)
  Effect : FFEffect;
  OldEffect : FFEffect
}.
(** The zero value [UInputFFUpload{}]. *)
Definition zero : t := mk 0 0 zeroFFEffect zeroFFEffect.
Definition setRequestID (v : Z) (r : t) : t :=
  mk v (ReturnValue r) (Effect r) (OldEffect r).
Definition setReturnValue (v : Z) (r : t) : t :=
  mk (RequestID r) v (Effect r) (OldEffect r).
End UInputFFUpload.

Module UInputFFErase.
Record t : Type := mk {
  RequestID : Z;     (* uint32 *)
  ReturnValue : Z;   (* int32 *)
  EffectID : Z       (* uint32 *)
}.
Definition zero : t := mk 0 0 0.
Definition setRequestID (v : Z) (r : t) : t := mk v (ReturnValue r) (EffectID r).
Definition setReturnValue (v : Z) (r : t) : t := mk (RequestID r) v (EffectID r).
End UInputFFErase.

(** ** The device file and the kernel behind it

    Every operation on the open device file is a system call answered by the
    kernel. The kernel is a state machine of an arbitrary state type [K]; a
    run of the package's code threads the kernel state and appends each call,
    with its arguments and its outcome, to a trace. *)

(** What [ioctl]'s third argument denotes: a plain word, or the request
    struct it points to (as it is when the call is made). *)
Inductive IoctlArg : Type :=
| ArgWord (v : Z)
| ArgUpload (r : UInputFFUpload.t)
| ArgErase (r : UInputFFErase.t).

Inductive SysEvent : Type :=
| EvRead (len : nat) (data : list byte) (err : option error)
| EvWrite (buf : list byte) (err : option error)
| EvClose (err : option error)
| EvIoctl (cmd : Z) (arg : IoctlArg) (errno : Z)
| EvCallback (upload : option UInputFFUpload.t) (erase : option UInputFFErase.t) (ret : Z).

Record Kernel (K : Type) : Type := mkKernel {
  (** [read] on a buffer of [len] bytes: the bytes delivered and the error. *)
  k_read : K -> nat -> list byte * option error * K;
  k_write : K -> list byte -> option error * K;
  k_close : K -> option error * K;
  (** [ioctl] with a word argument: the errno (0 for success). *)
  k_ioctl : K -> Z -> Z -> Z * K;
  (** [ioctl] with a pointer to a request: the request as the kernel leaves
      it, and the errno. *)
  k_ioctl_upload : K -> Z -> UInputFFUpload.t -> UInputFFUpload.t * Z * K;
  k_ioctl_erase : K -> Z -> UInputFFErase.t -> UInputFFErase.t * Z * K
}.

Arguments k_read {K}.
Arguments k_write {K}.
Arguments k_close {K}.
Arguments k_ioctl {K}.
Arguments k_ioctl_upload {K}.
Arguments k_ioctl_erase {K}.

Record World (K : Type) : Type := mkWorld { kstate : K; trace : list SysEvent }.
Arguments mkWorld {K}.
Arguments kstate {K}.
Arguments trace {K}.

(** The user's callback [func(upload *UInputFFUpload, erase *UInputFFErase) int32].
    A nil pointer is [None]. The callback holds the pointers, so besides its
    result it leaves the pointed-to requests in a state of its choosing. *)
Record CallbackResult : Type := mkCallbackResult {
  cbReturn : Z;
  cbUpload : option UInputFFUpload.t;
  cbErase : option UInputFFErase.t
}.

Definition Callback : Type :=
  option UInputFFUpload.t -> option UInputFFErase.t -> CallbackResult.

(** A state monad over the world. *)
Definition M (K A : Type) : Type := World K -> A * World K.

Definition ret {K A : Type} (a : A) : M K A := fun w => (a, w).

Definition bind {K A B : Type} (m : M K A) (f : A -> M K B) : M K B :=
  fun w => let '(a, w') := m w in f a w'.

Declare Scope dev_scope.
Delimit Scope dev_scope with dev.
Notation "x <- m ;; k" := (bind m (fun x => k))
  (at level 61, m at next level, right associativity) : dev_scope.
Notation "' pat <- m ;; k" := (bind m (fun x => match x with pat => k end))
  (at level 61, pat pattern, m at next level, right associativity) : dev_scope.

Definition log {K : Type} (e : SysEvent) (k : K) (w : World K) : World K :=
  mkWorld k (trace w ++ [e]).

Section Device.

Context {K : Type} (kern : Kernel K).
Local Open Scope dev_scope.

(** What the file object makes of the outcome of the read system call: a
    read that delivers nothing into a non-empty buffer, without an error, is
    reported as [io.EOF]; an error of the system call is passed on. *)
Definition read_error (buf data : list byte) (err : option error) : option error :=
  match data, err, buf with
  | [], None, _ :: _ => Some ErrEOF
  | _, _, _ => err
  end.

(** [deviceFile.Read(buf)]: the first bytes of [buf] are overwritten with
    what was delivered; returns the buffer, the count and the error. The
    trace keeps the outcome of the system call itself. *)
Definition file_Read (buf : list byte) : M K (list byte * Z * option error) :=
  fun w =>
    let '(delivered, err, k') := k_read kern (kstate w) (length buf) in
    let data := firstn (length buf) delivered in
    (data ++ skipn (length data) buf, Z.of_nat (length data), read_error buf data err,
     log (EvRead (length buf) data err) k' w).

Definition file_Write (buf : list byte) : M K (option error) :=
  fun w =>
    let '(err, k') := k_write kern (kstate w) buf in
    (err, log (EvWrite buf err) k' w).

Definition file_Close : M K (option error) :=
  fun w =>
    let '(err, k') := k_close kern (kstate w) in
    (err, log (EvClose err) k' w).

Definition errno_error (errno : Z) : option error :=
  if errno =? 0 then None else Some (Errno errno).

Definition ioctl (cmd ptr : Z) : M K (option error) :=
  fun w =>
    let '(errno, k') := k_ioctl kern (kstate w) cmd ptr in
    (errno_error errno, log (EvIoctl cmd (ArgWord ptr) errno) k' w).

Definition ioctl_upload (cmd : Z) (req : UInputFFUpload.t)
  : M K (UInputFFUpload.t * option error) :=
  fun w =>
    let '(req', errno, k') := k_ioctl_upload kern (kstate w) cmd req in
    (req', errno_error errno, log (EvIoctl cmd (ArgUpload req) errno) k' w).

Definition ioctl_erase (cmd : Z) (req : UInputFFErase.t)
  : M K (UInputFFErase.t * option error) :=
  fun w =>
    let '(req', errno, k') := k_ioctl_erase kern (kstate w) cmd req in
    (req', errno_error errno, log (EvIoctl cmd (ArgErase req) errno) k' w).

(** Calling the callback with [(&ffUp, nil)] resp. [(nil, &ffErs)]: the
    result and the request as the callback leaves it. *)
Definition call_upload (callback : Callback) (ffUp : UInputFFUpload.t)
  : M K (Z * UInputFFUpload.t) :=
  fun w =>
    let r := callback (Some ffUp) None in
    (cbReturn r, match cbUpload r with Some ffUp' => ffUp' | None => ffUp end,
     log (EvCallback (Some ffUp) None (cbReturn r)) (kstate w) w).

Definition call_erase (callback : Callback) (ffErs : UInputFFErase.t)
  : M K (Z * UInputFFErase.t) :=
  fun w =>
    let r := callback None (Some ffErs) in
    (cbReturn r, match cbErase r with Some ffErs' => ffErs' | None => ffErs end,
     log (EvCallback None (Some ffErs) (cbReturn r)) (kstate w) w).

(** *** uinput.go *)

Definition releaseDevice : M K (option error) :=
  ioctl uiDevDestroy 0.

Definition closeDevice : M K (option error) :=
  err <- releaseDevice ;;
  match err with
  | Some e => ret (Some (Errorf "failed to close device" e))
  | None => file_Close
  end.

Definition syncEvents : M K (option error) :=
  let '(buf, err) := inputEventToBuffer
                       (mkInputEvent (mkTimeval 0 0) evSyn (uint16 synReport) 0) in
  match err with
  | Some e => ret (Some (Errorf "writing sync event failed" e))
  | None => file_Write buf
  end.

(** The [for _, key := range keys] loop of [sendBtnEvent]; [None] when the
    loop runs to its end, the returned error when it is left early. *)
Fixpoint sendBtnEvent_loop (keys : list Z) (btnState : Z) : M K (option error) :=
  match keys with
  | [] => ret None
  | key :: rest =>
    let '(buf, err) := inputEventToBuffer
                         (mkInputEvent (mkTimeval 0 0) evKey (uint16 key) (int32 btnState)) in
    match err with
    | Some e => ret (Some (Errorf "key event could not be set" e))
    | None =>
      err <- file_Write buf ;;
      match err with
      | Some e =>
        ret (Some (Errorf "writing btnEvent structure to the device file failed" e))
      | None => sendBtnEvent_loop rest btnState
      end
    end
  end.

Definition sendBtnEvent (keys : list Z) (btnState : Z) : M K (option error) :=
  err <- sendBtnEvent_loop keys btnState ;;
  match err with
  | Some e => ret (Some e)
  | None => syncEvents
  end.

Definition readEvent : M K (option inputEvent * option error) :=
  '(buf, n, err) <- file_Read (repeat Byte.x00 24) ;;
  match err with
  | Some e => ret (None, Some (Errorf "reading input event from device file failed" e))
  | None =>
    if n =? 0 then ret (None, None)
    else
      let '(iev, err) := inputEventFromBuffer buf in
      match err with
      | Some e =>
        ret (None, Some (Errorf "device file read failed on input event from buffer" e))
      | None => ret (iev, None)
      end
  end.

Definition forceFeedbackCallback (callback : option Callback) : M K (option error) :=
  '(ie, err) <- readEvent ;;
  match err with
  | Some e => ret (Some e)
  | None =>
    match ie with
    | None => ret None
    | Some ie =>
      match callback with
      | None => ret (Some (ErrorString "callback was nil"))
      | Some callback =>
        if Type_ ie =? evUinput then
          if Code ie =? uiFFUpload then
            let ffUp := UInputFFUpload.setRequestID (uint32 (Value ie)) UInputFFUpload.zero in
            '(ffUp, err) <- ioctl_upload uiBeginFFUpload ffUp ;;
            match err with
            | Some e => ret (Some (Errorf "begin ff upload ioctl failed" e))
            | None =>
              '(rv, ffUp) <- call_upload callback ffUp ;;
              let ffUp := UInputFFUpload.setReturnValue rv ffUp in
              '(ffUp, err) <- ioctl_upload uiEndFFUpload ffUp ;;
              match err with
              | Some e => ret (Some (Errorf "end ff upload ioctl failed" e))
              | None => ret None
              end
            end
          else if Code ie =? uiFFErase then
            let ffErs := UInputFFErase.setRequestID (uint32 (Value ie)) UInputFFErase.zero in
            '(ffErs, err) <- ioctl_erase uiBeginFFErase ffErs ;;
            match err with
            | Some e => ret (Some (Errorf "begin ff erase ioctl failed" e))
            | None =>
              '(rv, ffErs) <- call_erase callback ffErs ;;
              let ffErs := UInputFFErase.setReturnValue rv ffErs in
              '(ffErs, err) <- ioctl_erase uiEndFFErase ffErs ;;
              match err with
              | Some e => ret (Some (Errorf "end ff erase ioctl failed" e))
              | None => ret None
              end
            end
          else ret None
        else ret None
      end
    end
  end.

(** Modelled from the spec: [KeyDown] and [KeyUp] belong to the keyboard
    device file, which is not among the sources; the spec has them write
    one key event for the code, pressed resp. released, followed by the
    sync event, which is [sendBtnEvent] on the one-element list. *)
Definition KeyDown (key : Z) : M K (option error) :=
  sendBtnEvent [key] btnStatePressed.

Definition KeyUp (key : Z) : M K (option error) :=
  sendBtnEvent [key] btnStateReleased.

End Device.

(** ** Reading a trace *)

Definition is_callback (e : SysEvent) : bool :=
  match e with EvCallback _ _ _ => true | _ => false end.

Definition is_ioctl (e : SysEvent) : bool :=
  match e with EvIoctl _ _ _ => true | _ => false end.

Definition is_read (e : SysEvent) : bool :=
  match e with EvRead _ _ _ => true | _ => false end.

Definition is_close (e : SysEvent) : bool :=
  match e with EvClose _ => true | _ => false end.

Definition count (f : SysEvent -> bool) (t : list SysEvent) : nat :=
  length (filter f t).

(** The records of the event writer. *)
Definition keyRecord (key btnState : Z) : list byte :=
  fst (inputEventToBuffer (mkInputEvent (mkTimeval 0 0) evKey (uint16 key) (int32 btnState))).

Definition syncRecord : list byte :=
  fst (inputEventToBuffer (mkInputEvent (mkTimeval 0 0) evSyn synReport 0)).

(** ** The upload path, event by event

    What one exchange does once it has read the control event [ie], leaving
    the world [w1], when [out] is the exchange's result and final world.
    The request that goes to the begin-upload control call has the event's
    value, as an unsigned 32-bit number, for its id, and zero everywhere
    else. If the kernel rejects that call the rejection is returned and
    nothing else happens. Otherwise the callback is called once, on the
    request as the kernel populated it and a nil erase pointer; the request
    that goes to the end-upload control call is the one the callback left,
    field by field, except that its return value is the callback's result;
    a rejection of that call is returned as an error. *)
Definition upload_exchange {K : Type} (kern : Kernel K) (callback : Callback)
    (ie : inputEvent) (w1 : World K) (out : option error * World K) : Prop :=
  let noEffect :=
    mkFFEffect 0 0 0 (mkFFTrigger 0 0) (mkFFReplay 0 0) 0 (repeat Byte.x00 32) in
  let request := UInputFFUpload.mk (Value ie mod 2 ^ 32) 0 noEffect noEffect in
  let '(populated, errno1, _) := k_ioctl_upload kern (kstate w1) uiBeginFFUpload request in
  let result := callback (Some populated) None in
  let left := match cbUpload result with Some r => r | None => populated end in
  let answered :=
    UInputFFUpload.mk (UInputFFUpload.RequestID left) (cbReturn result)
                      (UInputFFUpload.Effect left) (UInputFFUpload.OldEffect left) in
  (is_int32 (Value ie) -> 0 <= Value ie -> Value ie mod 2 ^ 32 = Value ie) /\
  (is_int32 (Value ie) -> Value ie < 0 -> Value ie mod 2 ^ 32 = Value ie + 2 ^ 32) /\
  exists T : list SysEvent,
    trace (snd out) = trace w1 ++ T /\
    (count is_callback T <= 1)%nat /\
    ((errno1 <> 0 /\
      T = [EvIoctl uiBeginFFUpload (ArgUpload request) errno1] /\
      count is_callback T = 0%nat /\
      fst out = Some (Errorf "begin ff upload ioctl failed" (Errno errno1)))
     \/
     (errno1 = 0 /\
      exists errno2 : Z,
        T = [EvIoctl uiBeginFFUpload (ArgUpload request) 0;
             EvCallback (Some populated) None (cbReturn result);
             EvIoctl uiEndFFUpload (ArgUpload answered) errno2] /\
        count is_callback T = 1%nat /\
        fst out = if errno2 =? 0 then None
                  else Some (Errorf "end ff upload ioctl failed" (Errno errno2)))).

(** The trace entry of a key record that the device accepted. *)
Definition keyWritten (btnState key : Z) : SysEvent :=
  EvWrite (keyRecord key btnState) None.

(** The buffers handed to [Write], in order, accepted or not. *)
Fixpoint written (t : list SysEvent) : list (list byte) :=
  match t with
  | [] => []
  | EvWrite buf _ :: r => buf :: written r
  | _ :: r => written r
  end.

(** ** Sample data: one event, one effect record, a few kernels *)

Definition sampleEvent : inputEvent :=
  mkInputEvent (mkTimeval 1700000000 (-1)) evKey 30 (-7).

(** A kernel whose answers are fixed, except that it accepts only a given
    number of writes: the state is the number of writes still accepted. *)
Record Script : Type := mkScript {
  s_read : list byte * option error;
  s_close : option error;
  s_errno : Z -> Z;          (* errno of an ioctl, by command *)
  s_effect : FFEffect        (* the effect the kernel hands out on begin-upload *)
}.

Definition scripted (s : Script) : Kernel nat :=
  mkKernel nat
    (fun k _ => (fst (s_read s), snd (s_read s), k))
    (fun k _ => match k with
                | O => (Some (FileError "write failed"), O)
                | S k' => (None, k')
                end)
    (fun k => (s_close s, k))
    (fun k cmd _ => (s_errno s cmd, k))
    (fun k cmd req =>
       (if cmd =? uiBeginFFUpload
        then UInputFFUpload.mk (UInputFFUpload.RequestID req) (UInputFFUpload.ReturnValue req)
                               (s_effect s) (UInputFFUpload.OldEffect req)
        else req,
        s_errno s cmd, k))
    (fun k cmd req => (req, s_errno s cmd, k)).

Definition start (writes : nat) : World nat := mkWorld writes [].

(** A 48-byte effect record: a rumble effect (type 0x50) with id 3, replay
    length 1000, strong magnitude 0x1234 and weak magnitude 0x00ff. *)
Definition rumbleRecord : list byte :=
  le_split 2 0x50 ++ le_split 2 3 ++ le_split 2 0 ++ le_split 4 0 ++
  le_split 2 1000 ++ le_split 2 0 ++ le_split 2 0 ++
  le_split 2 0x1234 ++ le_split 2 0x00ff ++ repeat Byte.x00 28.

(** Two 48-byte records that differ exactly in bytes [28:32) and [44:48). *)
Definition conditionRecordA : list byte := repeat Byte.x00 48.

Definition conditionRecordB : list byte :=
  repeat Byte.x00 28 ++ repeat Byte.xff 4 ++ repeat Byte.x00 12 ++ repeat Byte.xff 4.

Definition controlEvent (code value : Z) : inputEvent :=
  mkInputEvent (mkTimeval 0 0) evUinput code value.

Definition eventBytes (e : inputEvent) : list byte := fst (inputEventToBuffer e).

Definition noErrno : Z -> Z := fun _ => 0.

(** The kernel delivers the control event [{type=control, code=upload,
    value=7}] and answers every control call with success. *)
Definition uploadKernel : Kernel nat :=
  scripted (mkScript (eventBytes (controlEvent uiFFUpload 7), None) None noErrno
                     (FFEffect_of_bytes rumbleRecord)).

(** The kernel delivers a control event with a code that is neither upload
    nor erase. *)
Definition otherCodeKernel : Kernel nat :=
  scripted (mkScript (eventBytes (controlEvent 3 7), None) None noErrno zeroFFEffect).

(** The kernel delivers an ordinary key event. *)
Definition keyEventKernel : Kernel nat :=
  scripted (mkScript (eventBytes sampleEvent, None) None noErrno zeroFFEffect).

(** The kernel has nothing to deliver. *)
Definition idleKernel : Kernel nat :=
  scripted (mkScript ([], None) None noErrno zeroFFEffect).

(** The kernel rejects the device-destroy control call with EINVAL. *)
Definition noDestroyKernel : Kernel nat :=
  scripted (mkScript ([], None) None
                     (fun cmd => if cmd =? uiDevDestroy then 22 else 0) zeroFFEffect).

(** A callback that accepts every request with code 5 and leaves the
    requests as they are. *)
Definition acceptAll : Callback :=
  fun upload erase => mkCallbackResult 5 upload erase.


(** * The rest of the protocol layer *)

From Stdlib Require Import DecimalString.

(** ** More constants of uinputdefs.go *)

Definition uinputMaxNameSize : Z := 80.
Definition uiDevCreate : Z := 0x5501.
Definition uiSetEvBit : Z := 0x40045564.
Definition absSize : nat := 64.

(** ** Device names *)

(** [%s] applied to a byte slice prints the bytes as they are. *)
Definition bytes_to_string (bs : list byte) : string := string_of_list_byte bs.

(** [%d] applied to an integer. *)
Definition decimal (z : Z) : string :=
  DecimalString.NilZero.string_of_int (Z.to_int z).

Definition validateUinputName (name : list byte) : option error :=
  match name with
  | [] => Some (ErrorString "device name may not be empty")
  | _ =>
    if Z.of_nat (length name) >? uinputMaxNameSize then
      Some (ErrorString ("device name " ++ bytes_to_string name ++
                         " is too long (maximum of " ++ decimal uinputMaxNameSize ++
                         " characters allowed)"))
    else None
  end.

(** The builtin [copy(dst, src)]: the first [min (len dst) (len src)] bytes of
    [dst] are overwritten. *)
Definition copy (dst src : list byte) : list byte :=
  let moved := firstn (length dst) src in
  moved ++ skipn (length moved) dst.

Definition toUinputName (name : list byte) : list byte :=
  let fixedSizeName := repeat Byte.x00 (Z.to_nat uinputMaxNameSize) in
  copy fixedSizeName name.

(** ** The device descriptor *)

Record inputID : Type := mkInputID {
  Bustype : Z;   (* uint16 *)
  Vendor : Z;    (* uint16 *)
  Product : Z;   (* uint16 *)
  Version : Z    (* uint16 *)
}.

(** The arrays are lists; a value of the Go type has [Name] of 80 bytes and
    the four tables of 64 entries each. *)
Record uinputUserDev : Type := mkUinputUserDev {
  Name : list byte;
  ID_ : inputID;
  EffectsMax : Z;       (* uint32 *)
  Absmax : list Z;      (* [absSize]int32 *)
  Absmin : list Z;
  Absfuzz : list Z;
  Absflat : list Z
}.

Definition wf_uinputUserDev (dev : uinputUserDev) : Prop :=
  length (Name dev) = Z.to_nat uinputMaxNameSize /\
  length (Absmax dev) = absSize /\ length (Absmin dev) = absSize /\
  length (Absfuzz dev) = absSize /\ length (Absflat dev) = absSize.

(** [binary.Write] of an [int32] array: the entries in order, four bytes
    each. *)
Definition write_int32s (table : list Z) : list byte :=
  flat_map (le_split 4) table.

(** [binary.Write(buf, binary.LittleEndian, dev)]: the fields in declaration
    order without padding; a fixed-size struct never makes it fail. *)
Definition binary_Write_uinputUserDev (dev : uinputUserDev) : list byte * option error :=
  (Name dev ++
   le_split 2 (Bustype (ID_ dev)) ++ le_split 2 (Vendor (ID_ dev)) ++
   le_split 2 (Product (ID_ dev)) ++ le_split 2 (Version (ID_ dev)) ++
   le_split 4 (EffectsMax dev) ++
   write_int32s (Absmax dev) ++ write_int32s (Absmin dev) ++
   write_int32s (Absfuzz dev) ++ write_int32s (Absflat dev),
   None).

(** Every number of a descriptor is in the range of its Go type. *)
Definition in_range_uinputUserDev (dev : uinputUserDev) : Prop :=
  is_uint16 (Bustype (ID_ dev)) /\ is_uint16 (Vendor (ID_ dev)) /\
  is_uint16 (Product (ID_ dev)) /\ is_uint16 (Version (ID_ dev)) /\
  0 <= EffectsMax dev < 2 ^ 32 /\
  Forall is_int32 (Absmax dev) /\ Forall is_int32 (Absmin dev) /\
  Forall is_int32 (Absfuzz dev) /\ Forall is_int32 (Absflat dev).

(** The size of the descriptor on the wire. *)
Definition uinputUserDevSize : nat := 1116.

(** The open device file, as a function result that may be nil. *)
Inductive FileRef : Type := deviceFile.

Section Registration.

Context {K : Type} (kern : Kernel K).
Local Open Scope dev_scope.

(** [defer cleanup] at the head of [body]: [cleanup] runs when [body] has
    produced its result, and its own result is dropped. *)
Definition deferred {A B : Type} (cleanup : M K A) (body : M K B) : M K B :=
  result <- body ;;
  _ <- cleanup ;;
  ret result.

(** In the failure branch [err] is overwritten by the result of
    [releaseDevice]; when that is nil, the message is formatted from the nil
    error, which [%v] prints as [<nil>]. *)
Definition registerDevice (evType : Z) : M K (option error) :=
  err <- ioctl kern uiSetEvBit evType ;;
  match err with
  | Some _ =>
    deferred (file_Close kern)
      (err <- releaseDevice kern ;;
       match err with
       | Some e => ret (Some (Errorf "failed to close device" e))
       | None => ret (Some (ErrorString "invalid file handle returned from ioctl: <nil>"))
       end)
  | None => ret None
  end.

(** The pause of 200 ms after the device is created changes neither the
    kernel's answers nor the trace and is not represented. *)
Definition createUsbDevice (dev : uinputUserDev) : M K (option FileRef * option error) :=
  let '(buf, err) := binary_Write_uinputUserDev dev in
  match err with
  | Some e =>
    _ <- file_Close kern ;;
    ret (None, Some (Errorf "failed to write user device buffer" e))
  | None =>
    err <- file_Write kern buf ;;
    match err with
    | Some e =>
      _ <- file_Close kern ;;
      ret (None, Some (Errorf "failed to write uidev struct to device file" e))
    | None =>
      err <- ioctl kern uiDevCreate 0 ;;
      match err with
      | Some e =>
        _ <- file_Close kern ;;
        ret (None, Some (Errorf "failed to create device" e))
      | None => ret (Some deviceFile, None)
      end
    end
  end.

End Registration.

(** ** The erase path, event by event

    What one exchange does once it has read the control event [ie] with code
    FF-erase, leaving the world [w1], when [out] is the exchange's result and
    final world. The request that goes to the begin-erase control call has
    the event's value, as an unsigned 32-bit number, for its id, and zero
    for its return value and effect id; the request that goes to the
    end-erase control call is the one the callback left, except that its
    return value is the callback's result. *)
Definition erase_exchange {K : Type} (kern : Kernel K) (callback : Callback)
    (ie : inputEvent) (w1 : World K) (out : option error * World K) : Prop :=
  let request := UInputFFErase.mk (Value ie mod 2 ^ 32) 0 0 in
  let '(populated, errno1, _) := k_ioctl_erase kern (kstate w1) uiBeginFFErase request in
  let result := callback None (Some populated) in
  let left := match cbErase result with Some r => r | None => populated end in
  let answered :=
    UInputFFErase.mk (UInputFFErase.RequestID left) (cbReturn result)
                     (UInputFFErase.EffectID left) in
  exists T : list SysEvent,
    trace (snd out) = trace w1 ++ T /\
    ((errno1 <> 0 /\
      T = [EvIoctl uiBeginFFErase (ArgErase request) errno1] /\
      fst out = Some (Errorf "begin ff erase ioctl failed" (Errno errno1)))
     \/
     (errno1 = 0 /\
      exists errno2 : Z,
        T = [EvIoctl uiBeginFFErase (ArgErase request) 0;
             EvCallback None (Some populated) (cbReturn result);
             EvIoctl uiEndFFErase (ArgErase answered) errno2] /\
        fst out = if errno2 =? 0 then None
                  else Some (Errorf "end ff erase ioctl failed" (Errno errno2)))).

(** The traces one exchange can add after its read: nothing; a rejected
    begin call; or a begin call, one callback call and the matching end
    call. *)
Inductive ExchangeTail : list SysEvent -> Prop :=
| TailIgnored : ExchangeTail []
| TailUploadRejected (req : UInputFFUpload.t) (errno : Z) :
    errno <> 0 ->
    ExchangeTail [EvIoctl uiBeginFFUpload (ArgUpload req) errno]
| TailUpload (req seen back : UInputFFUpload.t) (rv errno : Z) :
    ExchangeTail [EvIoctl uiBeginFFUpload (ArgUpload req) 0;
                  EvCallback (Some seen) None rv;
                  EvIoctl uiEndFFUpload (ArgUpload back) errno]
| TailEraseRejected (req : UInputFFErase.t) (errno : Z) :
    errno <> 0 ->
    ExchangeTail [EvIoctl uiBeginFFErase (ArgErase req) errno]
| TailErase (req seen back : UInputFFErase.t) (rv errno : Z) :
    ExchangeTail [EvIoctl uiBeginFFErase (ArgErase req) 0;
                  EvCallback None (Some seen) rv;
                  EvIoctl uiEndFFErase (ArgErase back) errno].

(** ** Control call numbers

    A control call number carries the size of its argument in bits 16 to 29;
    the source builds the number of the sysname call as
    [(len << 16) | 0x8000552C]. *)
Definition ioc_size (cmd : Z) : Z := Z.land (Z.shiftr cmd 16) 0x3fff.

Definition tUInputFFUpload : GoType :=
  TStruct [("RequestID", TUint32); ("ReturnValue", TInt32);
           ("Effect", tFFEffect); ("OldEffect", tFFEffect)]%string.

Definition tUInputFFErase : GoType :=
  TStruct [("RequestID", TUint32); ("ReturnValue", TInt32);
           ("EffectID", TUint32)]%string.

(** ** The other members of the union *)

Definition is_int16 (x : Z) : Prop := - 2 ^ 15 <= x < 2 ^ 15.

Record FFEnvelope : Type := mkFFEnvelope {
  AttackLength : Z;  (* uint16 *)
  AttackLevel : Z;   (* uint16 *)
  FadeLength : Z;    (* uint16 *)
  FadeLevel : Z      (* uint16 *)
}.

Definition wf_FFEnvelope (e : FFEnvelope) : Prop :=
  is_uint16 (AttackLength e) /\ is_uint16 (AttackLevel e) /\
  is_uint16 (FadeLength e) /\ is_uint16 (FadeLevel e).

Module FFConstantEffect.
Record t : Type := mk {
  Level : Z;            (* int16 *)
  Envelope : FFEnvelope
}.
End FFConstantEffect.

Module FFRampEffect.
Record t : Type := mk {
  StartLevel : Z;       (* int16 *)
  EndLevel : Z;         (* int16 *)
  Envelope : FFEnvelope
}.
End FFRampEffect.

Module FFPeriodicEffect.
Record t : Type := mk {
  Waveform : Z;         (* uint16 *)
  Period : Z;           (* uint16 *)
  Magnitude : Z;        (* int16 *)
  Offset : Z;           (* int16 *)
  Phase : Z;            (* uint16 *)
  Envelope : FFEnvelope;
  CustomLen : Z;        (* uint32 *)
  CustomData : Z        (* *int16: the address, a 64-bit word *)
}.
End FFPeriodicEffect.

Definition load_uint32 (mem : list byte) (off : nat) : Z :=
  le_combine (slice off 4 mem).

(** A pointer on the 64-bit target. *)
Definition load_pointer (mem : list byte) (off : nat) : Z :=
  le_combine (slice off 8 mem).

Definition load_FFEnvelope (mem : list byte) (off : nat) : FFEnvelope :=
  mkFFEnvelope (load_uint16 mem off) (load_uint16 mem (off + 2))
               (load_uint16 mem (off + 4)) (load_uint16 mem (off + 6)).

Definition load_FFConstantEffect (mem : list byte) (off : nat) : FFConstantEffect.t :=
  FFConstantEffect.mk (load_int16 mem off) (load_FFEnvelope mem (off + 2)).

Definition load_FFRampEffect (mem : list byte) (off : nat) : FFRampEffect.t :=
  FFRampEffect.mk (load_int16 mem off) (load_int16 mem (off + 2))
                  (load_FFEnvelope mem (off + 4)).

(** The fields at their offsets on the 64-bit target: two bytes of padding
    precede [CustomLen], and the pointer takes the last eight bytes. *)
Definition load_FFPeriodicEffect (mem : list byte) (off : nat) : FFPeriodicEffect.t :=
  FFPeriodicEffect.mk
    (load_uint16 mem off) (load_uint16 mem (off + 2))
    (load_int16 mem (off + 4)) (load_int16 mem (off + 6))
    (load_uint16 mem (off + 8)) (load_FFEnvelope mem (off + 10))
    (load_uint32 mem (off + 20)) (load_pointer mem (off + 24)).

Definition Periodic (ff : FFEffect) : FFPeriodicEffect.t :=
  load_FFPeriodicEffect (u ff) 0.

Definition Ramp (ff : FFEffect) : FFRampEffect.t :=
  load_FFRampEffect (u ff) 0.

Definition Constant (ff : FFEffect) : FFConstantEffect.t :=
  load_FFConstantEffect (u ff) 0.

(** The bytes of an envelope, of a constant, of a ramp, of a periodic effect
    and of a condition block as they lie in memory on the 64-bit target; the
    two bytes between the envelope and [CustomLen] of a periodic effect are
    padding and may hold anything. *)
Definition envelope_bytes (e : FFEnvelope) : list byte :=
  le_split 2 (AttackLength e) ++ le_split 2 (AttackLevel e) ++
  le_split 2 (FadeLength e) ++ le_split 2 (FadeLevel e).

Definition constant_bytes (c : FFConstantEffect.t) : list byte :=
  le_split 2 (FFConstantEffect.Level c) ++ envelope_bytes (FFConstantEffect.Envelope c).

Definition ramp_bytes (r : FFRampEffect.t) : list byte :=
  le_split 2 (FFRampEffect.StartLevel r) ++ le_split 2 (FFRampEffect.EndLevel r) ++
  envelope_bytes (FFRampEffect.Envelope r).

Definition periodic_bytes (pad0 pad1 : byte) (p : FFPeriodicEffect.t) : list byte :=
  le_split 2 (FFPeriodicEffect.Waveform p) ++ le_split 2 (FFPeriodicEffect.Period p) ++
  le_split 2 (FFPeriodicEffect.Magnitude p) ++ le_split 2 (FFPeriodicEffect.Offset p) ++
  le_split 2 (FFPeriodicEffect.Phase p) ++ envelope_bytes (FFPeriodicEffect.Envelope p) ++
  [pad0; pad1] ++
  le_split 4 (FFPeriodicEffect.CustomLen p) ++ le_split 8 (FFPeriodicEffect.CustomData p).

Definition wf_FFConstantEffect (c : FFConstantEffect.t) : Prop :=
  is_int16 (FFConstantEffect.Level c) /\ wf_FFEnvelope (FFConstantEffect.Envelope c).

Definition wf_FFRampEffect (r : FFRampEffect.t) : Prop :=
  is_int16 (FFRampEffect.StartLevel r) /\ is_int16 (FFRampEffect.EndLevel r) /\
  wf_FFEnvelope (FFRampEffect.Envelope r).

Definition wf_FFPeriodicEffect (p : FFPeriodicEffect.t) : Prop :=
  is_uint16 (FFPeriodicEffect.Waveform p) /\ is_uint16 (FFPeriodicEffect.Period p) /\
  is_int16 (FFPeriodicEffect.Magnitude p) /\ is_int16 (FFPeriodicEffect.Offset p) /\
  is_uint16 (FFPeriodicEffect.Phase p) /\ wf_FFEnvelope (FFPeriodicEffect.Envelope p) /\
  0 <= FFPeriodicEffect.CustomLen p < 2 ^ 32 /\
  0 <= FFPeriodicEffect.CustomData p < 2 ^ 64.

Definition condition_bytes (c : FFConditionEffect) : list byte :=
  le_split 2 (RightSaturation c) ++ le_split 2 (LeftSaturation c) ++
  le_split 2 (RightCoeff c) ++ le_split 2 (LeftCoeff c) ++
  le_split 2 (Deadband c) ++ le_split 2 (Center c).

Definition wf_FFConditionEffect (c : FFConditionEffect) : Prop :=
  is_uint16 (RightSaturation c) /\ is_uint16 (LeftSaturation c) /\
  is_int16 (RightCoeff c) /\ is_int16 (LeftCoeff c) /\
  is_uint16 (Deadband c) /\ is_int16 (Center c).

(** Sample effects. *)
Definition sampleEnvelope : FFEnvelope := mkFFEnvelope 100 0x7fff 200 0.

Definition sampleConstant : FFConstantEffect.t :=
  FFConstantEffect.mk (-12000) sampleEnvelope.

Definition sampleRamp : FFRampEffect.t :=
  FFRampEffect.mk (-32768) 32767 sampleEnvelope.

Definition samplePeriodic : FFPeriodicEffect.t :=
  FFPeriodicEffect.mk 0x5a 50 (-1) 16 0xffff sampleEnvelope 4 0xc000123458.

Definition sampleCondition0 : FFConditionEffect :=
  mkFFConditionEffect 0xffff 1 (-2) 3 4 (-5).

Definition sampleCondition1 : FFConditionEffect :=
  mkFFConditionEffect 6 7 8 (-9) 10 11.

(** A 48-byte record with a zero header and the given payload, cut or
    filled with zero bytes to 32 bytes. *)
Definition recordWith (payload : list byte) : list byte :=
  repeat Byte.x00 16 ++ firstn 32 (payload ++ repeat Byte.x00 32).

(** ** More sample data *)

(** The kernel delivers the control event [{type=control, code=erase,
    value=9}] and answers every control call with success. *)
Definition eraseKernel : Kernel nat :=
  scripted (mkScript (eventBytes (controlEvent uiFFErase 9), None) None noErrno
                     zeroFFEffect).

(** A descriptor as a device constructor would fill it: a USB device named
    "testpad" with one effect slot and the x axis ranging over [0, 800]. *)
Definition sampleDev : uinputUserDev :=
  mkUinputUserDev
    (toUinputName (list_byte_of_string "testpad"))
    (mkInputID 0x03 0xDEAD 0xBEEF 1)
    1
    (800 :: repeat 0 63) (repeat 0 64) (repeat 0 64) (repeat 0 64).

(** The kernel delivers the control event with code upload and the value -1
    and answers every control call with success. *)
Definition negativeUploadKernel : Kernel nat :=
  scripted (mkScript (eventBytes (controlEvent uiFFUpload (-1)), None) None noErrno
                     (FFEffect_of_bytes rumbleRecord)).

(** A 48-byte record that differs from the all-zero one exactly in bytes
    [44:48). *)
Definition conditionRecordC : list byte :=
  repeat Byte.x00 44 ++ repeat Byte.xff 4.

(** A 48-byte record that holds two condition blocks one after the other,
    as the elements of an array of two lie in memory: the first in bytes
    [16:28), the second in bytes [28:40). *)
Definition conditionArrayRecord : list byte :=
  recordWith (condition_bytes sampleCondition0 ++ condition_bytes sampleCondition1).

(** * Properties *)

(** ** The event codec *)

Lemma to_signed_unsigned (n x : Z) :
  0 < n -> - 2 ^ (n - 1) <= x < 2 ^ (n - 1) ->
  to_signed n (x mod 2 ^ n) = x.
Proof.
  intros Hn Hx. unfold to_signed.
  assert (Hp : 2 ^ n = 2 * 2 ^ (n - 1)).
  { replace n with (Z.succ (n - 1)) at 1 by lia. rewrite Z.pow_succ_r; lia. }
  rewrite Zplus_mod_idemp_l.
  rewrite Z.mod_small; lia.
Qed.

Lemma encode_length (iev : inputEvent) :
  length (fst (inputEventToBuffer iev)) = inputEventSize.
Proof.
  unfold inputEventToBuffer, binary_Write_inputEvent; cbn [fst].
  rewrite !length_app, !length_le_split. reflexivity.
Qed.

Lemma encode_no_error (iev : inputEvent) : snd (inputEventToBuffer iev) = None.
Proof. reflexivity. Qed.

Lemma slice_app_0 (n : nat) (a b : list byte) :
  length a = n -> slice 0 n (a ++ b) = a.
Proof.
  intros <-. unfold slice. cbn [skipn].
  rewrite firstn_app, Nat.sub_diag, firstn_all. cbn. apply app_nil_r.
Qed.

Lemma slice_app_skip (off n k : nat) (a b : list byte) :
  length a = k -> (k <= off)%nat -> slice off n (a ++ b) = slice (off - k) n b.
Proof.
  intros <- Hle. unfold slice. rewrite skipn_app.
  rewrite skipn_all2 by lia. reflexivity.
Qed.

Lemma slice_all (n : nat) (a : list byte) : length a = n -> slice 0 n a = a.
Proof. intros <-. unfold slice. cbn [skipn]. apply firstn_all. Qed.

Lemma slice_slice (o1 n1 o2 n2 : nat) (l : list byte) :
  (o2 + n2 <= n1)%nat -> slice o2 n2 (slice o1 n1 l) = slice (o1 + o2) n2 l.
Proof.
  intros H. unfold slice.
  rewrite skipn_firstn_comm, firstn_firstn, skipn_skipn.
  rewrite Nat.min_l by lia. f_equal. f_equal. lia.
Qed.

Lemma binary_Read_full (buffer : list byte) :
  (inputEventSize <= length buffer)%nat ->
  binary_Read_inputEvent buffer = (decodeFields buffer, None).
Proof.
  unfold binary_Read_inputEvent, inputEventSize. intros H.
  destruct buffer as [|b t]; [cbn in H; lia|].
  destruct (Nat.ltb_spec (length (b :: t)) 24); [lia|reflexivity].
Qed.

Lemma inputEventFromBuffer_full (buffer : list byte) :
  (inputEventSize <= length buffer)%nat ->
  inputEventFromBuffer buffer = (Some (decodeFields buffer), None).
Proof.
  intros H. unfold inputEventFromBuffer. now rewrite binary_Read_full.
Qed.

Lemma decode_encode (e : inputEvent) :
  wf_inputEvent e -> decodeFields (fst (inputEventToBuffer e)) = e.
Proof.
  destruct e as [[s us] t c v].
  intros (Hs & Hus & Ht & Hc & Hv); cbn in Hs, Hus, Ht, Hc, Hv.
  unfold is_int64, is_uint16, is_int32 in *.
  unfold inputEventToBuffer, binary_Write_inputEvent, decodeFields.
  cbn [fst Time Sec Usec Type_ Code Value].
  rewrite slice_app_0 by apply length_le_split.
  rewrite (slice_app_skip 8 8 8) by (rewrite ?length_le_split; lia).
  rewrite (slice_app_skip 16 2 8), (slice_app_skip (16-8) 2 8)
    by (rewrite ?length_le_split; cbn; lia).
  rewrite (slice_app_skip 18 2 8), (slice_app_skip (18-8) 2 8), (slice_app_skip (18-8-8) 2 2)
    by (rewrite ?length_le_split; cbn; lia).
  rewrite (slice_app_skip 20 4 8), (slice_app_skip (20-8) 4 8), (slice_app_skip (20-8-8) 4 2),
    (slice_app_skip (20-8-8-2) 4 2) by (rewrite ?length_le_split; cbn; lia).
  cbn [Nat.sub].
  rewrite !slice_app_0 by apply length_le_split.
  rewrite slice_all by apply length_le_split.
  rewrite !le_combine_split.
  change (Z.of_nat 8 * 8) with 64. change (Z.of_nat 2 * 8) with 16.
  change (Z.of_nat 4 * 8) with 32.
  unfold int64, int32.
  rewrite !to_signed_unsigned by (cbn; lia).
  rewrite !Z.mod_small by lia.
  reflexivity.
Qed.

(** C1. Decoding the little-endian buffer produced by encoding an event
    record gives the record back: encoding succeeds with a 24-byte buffer,
    and [inputEventFromBuffer] on that buffer returns the record and no
    error. *)
Theorem C1_decode_encode (e : inputEvent) (Hwf : wf_inputEvent e) :
  exists buf,
    inputEventToBuffer e = (buf, None) /\
    length buf = inputEventSize /\
    inputEventFromBuffer buf = (Some e, None).
Proof.
  exists (fst (inputEventToBuffer e)). split; [reflexivity|]. split.
  - apply encode_length.
  - rewrite inputEventFromBuffer_full by (rewrite encode_length; apply Nat.le_refl).
    now rewrite decode_encode.
Qed.

Lemma C1_decode_encode_witness :
  wf_inputEvent sampleEvent /\
  exists buf,
    inputEventToBuffer sampleEvent = (buf, None) /\
    length buf = inputEventSize /\
    inputEventFromBuffer buf = (Some sampleEvent, None).
Proof.
  assert (H : wf_inputEvent sampleEvent).
  { repeat split; cbv; congruence. }
  split; [exact H | exact (C1_decode_encode sampleEvent H)].
Defined.

(** ** The layout of the effect record *)

Lemma offsetof_payload (p : Platform) : offsetof p tFFEffect "u" = Some 16%nat.
Proof. destruct p as [w [|[|m]]]; reflexivity. Qed.

Lemma sizeof_FFConditionEffect (p : Platform) : sizeof p tFFConditionEffect = 12%nat.
Proof. destruct p as [w [|[|m]]]; reflexivity. Qed.

Lemma sizeof_FFRumbleEffect (p : Platform) : sizeof p tFFRumbleEffect = 4%nat.
Proof. destruct p as [w [|[|m]]]; reflexivity. Qed.

(** The periodic effect holds a pointer: it fills the 32-byte payload on a
    64-bit target and is shorter on a 32-bit one. *)
Lemma sizeof_FFPeriodicEffect :
  sizeof amd64 tFFPeriodicEffect = 32%nat /\ sizeof i386 tFFPeriodicEffect = 28%nat.
Proof. split; reflexivity. Qed.

(** On the 64-bit target every member of the union fits in the payload, and
    so does the second condition block loaded at [u[16]]: no accessor reads
    past the record. *)
Lemma union_members_fit :
  (sizeof amd64 tFFConstantEffect <= 32 /\ sizeof amd64 tFFRampEffect <= 32 /\
   sizeof amd64 tFFPeriodicEffect <= 32 /\ sizeof amd64 tFFRumbleEffect <= 32 /\
   16 + sizeof amd64 tFFConditionEffect <= 32)%nat.
Proof. cbv. repeat split; repeat constructor. Qed.

Lemma load_range_u (p : Platform) (t : GoType) (i : nat) :
  load_range p t i = ((16 + i)%nat, (16 + i + sizeof p t)%nat).
Proof.
  unfold load_range. now rewrite offsetof_payload.
Qed.

(** The memory image of a record agrees with the layout. *)
Lemma FFEffect_to_bytes_length (ff : FFEffect) :
  wf_FFEffect ff -> length (FFEffect_to_bytes ff) = 48%nat.
Proof.
  unfold wf_FFEffect, FFEffect_to_bytes. intros H.
  rewrite !length_app, !length_le_split, H. reflexivity.
Qed.

Lemma FFEffect_to_bytes_payload (ff : FFEffect) :
  wf_FFEffect ff -> slice 16 payloadSize (FFEffect_to_bytes ff) = u ff.
Proof.
  unfold wf_FFEffect, FFEffect_to_bytes. intros H.
  repeat (rewrite (slice_app_skip _ _ 2) by (rewrite ?length_le_split; cbn; lia);
          cbn [Nat.sub]).
  now apply slice_all.
Qed.

(** C8. The layout of the effect record is fixed: the header fields and the
    padding field fill bytes [0:16), the union payload starts at offset 16
    and takes 32 bytes, and the record is 48 bytes long, whatever the word
    size and the maximal alignment of the platform. *)
Theorem C8_FFEffect_layout (p : Platform) :
  field_layout p tFFEffect =
    [("Type", 0, 2); ("ID", 2, 2); ("Direction", 4, 2); ("Trigger", 6, 4);
     ("Replay", 10, 4); ("_", 14, 2); ("u", 16, 32)]%string%nat /\
  offsetof p tFFEffect "u" = Some 16%nat /\
  sizeof p tFFEffect = 48%nat.
Proof.
  (* Every field is made of 16-bit words or of bytes, so its alignment is 1
     or 2 on any platform and no field is ever moved by padding. *)
  destruct p as [w [|[|m]]].
  - (* maximal alignment 0: every alignment is clamped to 1 *)
    split; [reflexivity|]. split; reflexivity.
  - (* maximal alignment 1 *)
    split; [reflexivity|]. split; reflexivity.
  - (* maximal alignment at least 2: 16-bit words are aligned to 2 *)
    split; [reflexivity|]. split; reflexivity.
Qed.

(** ** The union accessors *)

Lemma load_uint16_slice (o n i : nat) (raw : list byte) :
  (i + 2 <= n)%nat -> load_uint16 (slice o n raw) i = load_uint16 raw (o + i).
Proof. intros H. unfold load_uint16. now rewrite slice_slice. Qed.

Lemma load_int16_slice (o n i : nat) (raw : list byte) :
  (i + 2 <= n)%nat -> load_int16 (slice o n raw) i = load_int16 raw (o + i).
Proof. intros H. unfold load_int16. now rewrite slice_slice. Qed.

Lemma load_FFRumbleEffect_slice (o n i : nat) (raw : list byte) :
  (i + 4 <= n)%nat ->
  load_FFRumbleEffect (slice o n raw) i = load_FFRumbleEffect raw (o + i).
Proof.
  intros H. unfold load_FFRumbleEffect.
  rewrite !load_uint16_slice by lia. now rewrite Nat.add_assoc.
Qed.

Lemma load_FFConditionEffect_slice (o n i : nat) (raw : list byte) :
  (i + 12 <= n)%nat ->
  load_FFConditionEffect (slice o n raw) i = load_FFConditionEffect raw (o + i).
Proof.
  intros H. unfold load_FFConditionEffect.
  rewrite !load_uint16_slice, !load_int16_slice by lia.
  now rewrite !Nat.add_assoc.
Qed.

(** The accessors in terms of the raw record. *)
Lemma Rumble_of_bytes (raw : list byte) :
  Rumble (FFEffect_of_bytes raw) = load_FFRumbleEffect (slice 16 4 raw) 0.
Proof.
  unfold Rumble, FFEffect_of_bytes, payloadSize. cbn [u].
  rewrite !load_FFRumbleEffect_slice by lia. reflexivity.
Qed.

Lemma Condition_of_bytes (raw : list byte) :
  Condition (FFEffect_of_bytes raw) =
    (load_FFConditionEffect (slice 16 12 raw) 0,
     load_FFConditionEffect (slice 32 12 raw) 0).
Proof.
  unfold Condition, FFEffect_of_bytes, payloadSize. cbn [u].
  rewrite !load_FFConditionEffect_slice by lia. reflexivity.
Qed.

Lemma load_FFRumbleEffect_pair (strong weak : Z) :
  is_uint16 strong -> is_uint16 weak ->
  load_FFRumbleEffect (le_split 2 strong ++ le_split 2 weak) 0 =
    mkFFRumbleEffect strong weak.
Proof.
  unfold is_uint16. intros Hs Hw.
  unfold load_FFRumbleEffect, load_uint16. cbn [Nat.add].
  rewrite slice_app_0 by apply length_le_split.
  rewrite (slice_app_skip 2 2 2) by (rewrite ?length_le_split; lia).
  cbn [Nat.sub]. rewrite slice_all by apply length_le_split.
  rewrite !le_combine_split. change (Z.of_nat 2 * 8) with 16.
  now rewrite !Z.mod_small by lia.
Qed.

(** C7. A record whose bytes [16:20) hold a pair of 16-bit magnitudes
    little-endian decodes, through [Rumble], to that pair; and [Rumble]
    gives the same pair on every record with the same bytes [16:20): these
    four bytes are the range the accessor loads. *)
Theorem C7_Rumble_roundtrip (p : Platform) (strong weak : Z) (raw raw' : list byte)
    (Hs : is_uint16 strong) (Hw : is_uint16 weak)
    (Hraw : slice 16 4 raw = le_split 2 strong ++ le_split 2 weak) :
  Rumble (FFEffect_of_bytes raw) = mkFFRumbleEffect strong weak /\
  (slice 16 4 raw' = slice 16 4 raw ->
   Rumble (FFEffect_of_bytes raw') = Rumble (FFEffect_of_bytes raw)) /\
  Rumble_ranges p = [(16, 20)]%nat.
Proof.
  split; [|split].
  - rewrite Rumble_of_bytes, Hraw. now apply load_FFRumbleEffect_pair.
  - intros H. now rewrite !Rumble_of_bytes, H.
  - unfold Rumble_ranges. now rewrite load_range_u, sizeof_FFRumbleEffect.
Qed.

Lemma C7_Rumble_roundtrip_witness :
  is_uint16 0x1234 /\ is_uint16 0x00ff /\
  slice 16 4 rumbleRecord = le_split 2 0x1234 ++ le_split 2 0x00ff /\
  Rumble (FFEffect_of_bytes rumbleRecord) = mkFFRumbleEffect 0x1234 0x00ff.
Proof.
  assert (Hs : is_uint16 0x1234) by (split; cbv; congruence).
  assert (Hw : is_uint16 0x00ff) by (split; cbv; congruence).
  assert (Hraw : slice 16 4 rumbleRecord = le_split 2 0x1234 ++ le_split 2 0x00ff)
    by reflexivity.
  split; [exact Hs|]. split; [exact Hw|]. split; [exact Hraw|].
  exact (proj1 (C7_Rumble_roundtrip amd64 0x1234 0x00ff rumbleRecord rumbleRecord Hs Hw Hraw)).
Defined.

(** ** Running the device code *)

Section DeviceProperties.

Context {K : Type} (kern : Kernel K).

Lemma read_buffer_length (data : list byte) :
  (length data <= 24)%nat ->
  length (data ++ skipn (length data) (repeat Byte.x00 24)) = 24%nat.
Proof.
  intros H. rewrite length_app, length_skipn, repeat_length. lia.
Qed.

(** [readEvent] is one read of the device file; what it returns is decided
    by the error and the bytes the kernel delivered. A read that delivers
    nothing comes back from the file object as the end-of-file error. *)
Lemma readEvent_spec (w : World K) :
  exists (data : list byte) (rerr : option error) (k' : K),
    (length data <= 24)%nat /\
    readEvent kern w =
      (match rerr with
       | Some e => (None, Some (Errorf "reading input event from device file failed" e))
       | None =>
         match data with
         | [] => (None, Some (Errorf "reading input event from device file failed" ErrEOF))
         | _ => (Some (decodeFields (data ++ skipn (length data) (repeat Byte.x00 24))), None)
         end
       end,
       log (EvRead 24 data rerr) k' w).
Proof.
  unfold readEvent, bind, file_Read. rewrite repeat_length.
  destruct (k_read kern (kstate w) 24) as [[delivered rerr] k'].
  exists (firstn 24 delivered), rerr, k'.
  assert (Hlen : (length (firstn 24 delivered) <= 24)%nat) by apply firstn_le_length.
  split; [exact Hlen|].
  destruct rerr as [e|]; [now destruct (firstn 24 delivered)|].
  destruct (firstn 24 delivered) as [|b t] eqn:E; [reflexivity|].
  cbn [read_error].
  replace (Z.of_nat (length (b :: t)) =? 0) with false
    by (symmetry; apply Z.eqb_neq; cbn [length]; lia).
  rewrite inputEventFromBuffer_full
    by (rewrite read_buffer_length by exact Hlen; apply Nat.le_refl).
  reflexivity.
Qed.

(** When an event comes back, the read left exactly one entry in the
    trace and reported no error. *)
Lemma readEvent_some (w w1 : World K) (ie : inputEvent) (err : option error) :
  readEvent kern w = (Some ie, err, w1) ->
  err = None /\ exists data, trace w1 = trace w ++ [EvRead 24 data None].
Proof.
  destruct (readEvent_spec w) as (data & rerr & k' & _ & E). rewrite E.
  destruct rerr as [e|]; [discriminate|].
  destruct data as [|b t]; [discriminate|].
  intros H. injection H as _ <- <-. split; [reflexivity|].
  now exists (b :: t).
Qed.

(** *** The force-feedback exchange *)

Lemma count_app (f : SysEvent -> bool) (a b : list SysEvent) :
  count f (a ++ b) = (count f a + count f b)%nat.
Proof. unfold count. now rewrite filter_app, length_app. Qed.

(** C4, amended. With a nil callback the exchange still begins with the read
    of the device file, and that read is its only interaction with the
    kernel: no control call is issued. A failed read is returned as the read
    error, and so is a read that delivers nothing, which the file object
    reports as end of file; only when an event was read is "callback was
    nil" returned. *)
Theorem C4_nil_callback (w : World K) :
  exists (data : list byte) (rerr : option error),
    trace (snd (forceFeedbackCallback kern None w)) =
      trace w ++ [EvRead 24 data rerr] /\
    fst (forceFeedbackCallback kern None w) =
      match rerr with
      | Some e => Some (Errorf "reading input event from device file failed" e)
      | None =>
        match data with
        | [] => Some (Errorf "reading input event from device file failed" ErrEOF)
        | _ => Some (ErrorString "callback was nil")
        end
      end.
Proof.
  destruct (readEvent_spec w) as (data & rerr & k' & _ & E).
  exists data, rerr. unfold forceFeedbackCallback, bind. rewrite E.
  destruct rerr as [e|]; [split; reflexivity|].
  destruct data as [|b t]; split; reflexivity.
Qed.

(** C9, amended. When the event read is not of the uinput control type, the
    exchange does nothing beyond the read: no callback is invoked and no
    control call is issued. It returns success when the callback is
    non-nil, and the "callback was nil" error when it is nil. *)
Theorem C9_other_type_ignored (callback : option Callback) (w w1 : World K)
    (ie : inputEvent)
    (Hread : readEvent kern w = (Some ie, None, w1))
    (Htype : Type_ ie <> evUinput) :
  forceFeedbackCallback kern callback w =
    (match callback with
     | Some _ => None
     | None => Some (ErrorString "callback was nil")
     end, w1) /\
  (exists data, trace w1 = trace w ++ [EvRead 24 data None]) /\
  count is_callback (trace w1) = count is_callback (trace w) /\
  count is_ioctl (trace w1) = count is_ioctl (trace w).
Proof.
  destruct (readEvent_some w w1 ie None Hread) as (_ & data & Ht).
  split; [|split; [now exists data|]].
  - unfold forceFeedbackCallback, bind. rewrite Hread.
    destruct callback as [cb|]; [|reflexivity].
    apply Z.eqb_neq in Htype. now rewrite Htype.
  - rewrite Ht, !count_app. cbn. lia.
Qed.

(** C10. When the event read is of the uinput control type but its code is
    neither FF-upload nor FF-erase, the exchange with a non-nil callback
    returns success, and the read is all it did: no callback was invoked
    and no control call was issued. *)
Theorem C10_other_code_ignored (callback : Callback) (w w1 : World K)
    (ie : inputEvent)
    (Hread : readEvent kern w = (Some ie, None, w1))
    (Htype : Type_ ie = evUinput)
    (Hupload : Code ie <> uiFFUpload) (Herase : Code ie <> uiFFErase) :
  forceFeedbackCallback kern (Some callback) w = (None, w1) /\
  (exists data, trace w1 = trace w ++ [EvRead 24 data None]) /\
  count is_callback (trace w1) = count is_callback (trace w) /\
  count is_ioctl (trace w1) = count is_ioctl (trace w).
Proof.
  destruct (readEvent_some w w1 ie None Hread) as (_ & data & Ht).
  split; [|split; [now exists data|]].
  - unfold forceFeedbackCallback, bind. rewrite Hread, Htype.
    apply Z.eqb_neq in Hupload, Herase. now rewrite Z.eqb_refl, Hupload, Herase.
  - rewrite Ht, !count_app. cbn. lia.
Qed.

(** C2, amended. When the event read is of the uinput control type with
    code FF-upload and the callback is non-nil, the exchange runs the upload
    path: a request whose id is the event's value converted to an unsigned
    32-bit number (the value itself when it is not negative, the value plus
    2^32 otherwise) and whose other fields are zero, the begin-upload
    control call on it, then one call of the callback on the populated
    request and a nil erase pointer, its result stored as the request's
    return value with the other fields as the callback left them, and the
    end-upload control call on that request; a control call the kernel
    rejects is returned as an error, and the callback runs at most once. *)
Theorem C2_upload_path (callback : Callback) (w w1 : World K) (ie : inputEvent)
    (Hread : readEvent kern w = (Some ie, None, w1))
    (Htype : Type_ ie = evUinput) (Hcode : Code ie = uiFFUpload) :
  upload_exchange kern callback ie w1 (forceFeedbackCallback kern (Some callback) w).
Proof.
  unfold upload_exchange, forceFeedbackCallback, bind.
  rewrite Hread, Htype, Hcode, !Z.eqb_refl.
  unfold ioctl_upload, call_upload, log, ret, errno_error. cbn [kstate trace].
  change (UInputFFUpload.setRequestID (uint32 (Value ie)) UInputFFUpload.zero)
    with (UInputFFUpload.mk (Value ie mod 2 ^ 32) 0
            (mkFFEffect 0 0 0 (mkFFTrigger 0 0) (mkFFReplay 0 0) 0 (repeat Byte.x00 32))
            (mkFFEffect 0 0 0 (mkFFTrigger 0 0) (mkFFReplay 0 0) 0 (repeat Byte.x00 32))).
  destruct (k_ioctl_upload kern (kstate w1) uiBeginFFUpload _)
    as [[populated errno1] k1].
  split; [intros Hr Hnn; unfold is_int32 in Hr; apply Z.mod_small; lia|].
  split.
  { intros Hr Hneg. unfold is_int32 in Hr.
    rewrite <- (Z.mod_add (Value ie) 1 (2 ^ 32)) by lia.
    rewrite Z.mul_1_l. apply Z.mod_small. lia. }
  destruct (Z.eqb_spec errno1 0) as [->|Hne].
  - cbn [kstate trace].
    set (left := match cbUpload (callback (Some populated) None) with
                 | Some r => r
                 | None => populated
                 end).
    change (UInputFFUpload.setReturnValue (cbReturn (callback (Some populated) None)) left)
      with (UInputFFUpload.mk (UInputFFUpload.RequestID left)
              (cbReturn (callback (Some populated) None))
              (UInputFFUpload.Effect left) (UInputFFUpload.OldEffect left)).
    destruct (k_ioctl_upload kern k1 uiEndFFUpload _) as [[final errno2] k2].
    eexists. split.
    { destruct (errno2 =? 0); cbn [snd trace]; rewrite <- !app_assoc; reflexivity. }
    split; [cbn; lia|]. right. split; [reflexivity|].
    exists errno2. split; [reflexivity|]. split; [reflexivity|].
    destruct (errno2 =? 0); reflexivity.
  - eexists. split; [reflexivity|]. split; [cbn; lia|].
    left. repeat split; auto.
Qed.

(** *** Teardown *)

(** C5, amended. [closeDevice] issues the device-destroy control call
    first. If the kernel rejects it, that error is returned (wrapped) and
    the file is left open; otherwise the file is closed and the result of
    closing it is returned. Either way the error returned is the first one
    met. *)
Theorem C5_closeDevice (w : World K) :
  exists errno : Z,
    (errno <> 0 /\
     trace (snd (closeDevice kern w)) =
       trace w ++ [EvIoctl uiDevDestroy (ArgWord 0) errno] /\
     fst (closeDevice kern w) =
       Some (Errorf "failed to close device" (Errno errno)))
    \/
    (errno = 0 /\
     exists cerr : option error,
       trace (snd (closeDevice kern w)) =
         trace w ++ [EvIoctl uiDevDestroy (ArgWord 0) 0; EvClose cerr] /\
       fst (closeDevice kern w) = cerr).
Proof.
  unfold closeDevice, releaseDevice, bind, ioctl, file_Close, log, ret, errno_error.
  destruct (k_ioctl kern (kstate w) uiDevDestroy 0) as [errno k1].
  exists errno. destruct (Z.eqb_spec errno 0) as [->|Hne].
  - right. split; [reflexivity|]. cbn [kstate trace].
    destruct (k_close kern k1) as [cerr k2]. exists cerr.
    cbn [fst snd trace]. now rewrite <- app_assoc.
  - left. repeat split; auto.
Qed.

(** *** The event writer *)

Lemma syncEvents_spec (w : World K) :
  exists (err : option error) (k' : K),
    syncEvents kern w = (err, log (EvWrite syncRecord err) k' w).
Proof.
  change (syncEvents kern w) with (file_Write kern syncRecord w).
  unfold file_Write.
  destruct (k_write kern (kstate w) syncRecord) as [err k'].
  now exists err, k'.
Qed.

Lemma sendBtnEvent_loop_spec (btnState : Z) (keys : list Z) (w : World K) :
  (fst (sendBtnEvent_loop kern keys btnState w) = None /\
   trace (snd (sendBtnEvent_loop kern keys btnState w)) =
     trace w ++ map (keyWritten btnState) keys)
  \/
  (exists (n : nat) (key : Z) (e : error),
     nth_error keys n = Some key /\
     fst (sendBtnEvent_loop kern keys btnState w) =
       Some (Errorf "writing btnEvent structure to the device file failed" e) /\
     trace (snd (sendBtnEvent_loop kern keys btnState w)) =
       trace w ++ map (keyWritten btnState) (firstn n keys) ++
       [EvWrite (keyRecord key btnState) (Some e)]).
Proof.
  revert w. induction keys as [|key rest IH]; intros w.
  - left. cbn. now rewrite app_nil_r.
  - change (sendBtnEvent_loop kern (key :: rest) btnState w)
      with (bind (file_Write kern (keyRecord key btnState))
              (fun err => match err with
                          | Some e =>
                            ret (Some (Errorf
                              "writing btnEvent structure to the device file failed" e))
                          | None => sendBtnEvent_loop kern rest btnState
                          end) w).
    unfold bind, file_Write.
    destruct (k_write kern (kstate w) (keyRecord key btnState)) as [[e|] k'].
    + right. exists 0%nat, key, e. repeat split.
    + specialize (IH (log (EvWrite (keyRecord key btnState) None) k' w)).
      destruct IH as [(Hok & Ht) | (n & key' & e & Hn & Herr & Ht)].
      * left. split; [exact Hok|]. rewrite Ht. cbn [log trace map].
        now rewrite <- app_assoc.
      * right. exists (S n), key', e. split; [exact Hn|]. split; [exact Herr|].
        rewrite Ht. cbn [log trace map firstn]. now rewrite <- app_assoc.
Qed.

Lemma nth_error_length (keys : list Z) (n : nat) (key : Z) :
  nth_error keys n = Some key -> (n < length keys)%nat.
Proof. intros H. apply nth_error_Some. congruence. Qed.

(** What one call of [sendBtnEvent] leaves in the trace. *)
Lemma sendBtnEvent_spec (btnState : Z) (keys : list Z) (w : World K) :
  exists (n : nat) (last : SysEvent),
    (n <= length keys)%nat /\
    trace (snd (sendBtnEvent kern keys btnState w)) =
      trace w ++ map (keyWritten btnState) (firstn n keys) ++ [last] /\
    ((n = length keys /\
      last = EvWrite syncRecord (fst (sendBtnEvent kern keys btnState w)))
     \/
     (exists (key : Z) (e : error),
        nth_error keys n = Some key /\
        last = EvWrite (keyRecord key btnState) (Some e) /\
        fst (sendBtnEvent kern keys btnState w) =
          Some (Errorf "writing btnEvent structure to the device file failed" e))).
Proof.
  unfold sendBtnEvent, bind.
  destruct (sendBtnEvent_loop_spec btnState keys w)
    as [(Hok & Ht) | (n & key & e & Hn & Herr & Ht)];
    destruct (sendBtnEvent_loop kern keys btnState w) as [err w1];
    cbn [fst snd] in *; subst err.
  - destruct (syncEvents_spec w1) as (serr & k' & Es). rewrite Es.
    exists (length keys), (EvWrite syncRecord serr).
    split; [apply Nat.le_refl|]. rewrite firstn_all. cbn [fst snd log trace].
    split; [now rewrite Ht, <- app_assoc|]. left. now split.
  - exists n, (EvWrite (keyRecord key btnState) (Some e)).
    split; [apply Nat.lt_le_incl; eapply nth_error_length; eassumption|].
    cbn [ret fst snd]. split; [exact Ht|]. right. now exists key, e.
Qed.

Lemma uint16_range (x : Z) : is_uint16 (uint16 x).
Proof. unfold is_uint16, uint16, to_unsigned. apply Z.mod_pos_bound. lia. Qed.

Lemma int32_range (x : Z) : is_int32 (int32 x).
Proof.
  unfold is_int32, int32, to_signed.
  pose proof (Z.mod_pos_bound (x + 2 ^ (32 - 1)) (2 ^ 32) ltac:(lia)). lia.
Qed.

Lemma keyRecord_decodes (key btnState : Z) :
  decodeFields (keyRecord key btnState) =
    mkInputEvent (mkTimeval 0 0) evKey (uint16 key) (int32 btnState).
Proof.
  unfold keyRecord. apply decode_encode.
  repeat split; cbn [Time Sec Usec Type_ Code Value];
    try apply uint16_range; try apply int32_range; cbv; congruence.
Qed.

(** A call that returns no error wrote every key record and the sync
    record, and the device accepted them all. *)
Lemma sendBtnEvent_success (btnState : Z) (keys : list Z) (w w' : World K) :
  sendBtnEvent kern keys btnState w = (None, w') ->
  trace w' = trace w ++ map (keyWritten btnState) keys ++ [EvWrite syncRecord None].
Proof.
  intros H.
  destruct (sendBtnEvent_spec btnState keys w)
    as (n & last & _ & Ht & [(-> & ->) | (key & e & _ & _ & Herr)]);
    rewrite H in *; cbn [fst snd] in *; [|discriminate].
  now rewrite firstn_all in Ht.
Qed.

(** C3, amended. [sendBtnEvent] writes one key event record (type EV_KEY,
    the code, the state) per code in list order and stops, with an error,
    at the first write the device rejects; when no key write is rejected
    (whatever the codes and the state, also for no code at all) it then
    writes one synchronization record, of type SYN, code REPORT and value
    0, and returns the outcome of that write. In particular a successful
    [KeyDown 1] followed by a successful [KeyUp 1] leaves exactly four
    records, the second and the fourth being sync records. *)
Theorem C3_sendBtnEvent (keys : list Z) (btnState : Z) (w : World K) :
  (exists (n : nat) (last : SysEvent),
     (n <= length keys)%nat /\
     trace (snd (sendBtnEvent kern keys btnState w)) =
       trace w ++ map (keyWritten btnState) (firstn n keys) ++ [last] /\
     ((n = length keys /\
       last = EvWrite syncRecord (fst (sendBtnEvent kern keys btnState w)))
      \/
      (exists (key : Z) (e : error),
         nth_error keys n = Some key /\
         last = EvWrite (keyRecord key btnState) (Some e) /\
         fst (sendBtnEvent kern keys btnState w) =
           Some (Errorf "writing btnEvent structure to the device file failed" e)))) /\
  (forall key : Z,
     decodeFields (keyRecord key btnState) =
       mkInputEvent (mkTimeval 0 0) evKey (uint16 key) (int32 btnState)) /\
  decodeFields syncRecord = mkInputEvent (mkTimeval 0 0) evSyn synReport 0 /\
  (forall w1 w2 : World K,
     KeyDown kern 1 w = (None, w1) -> KeyUp kern 1 w1 = (None, w2) ->
     trace w2 =
       trace w ++ [EvWrite (keyRecord 1 btnStatePressed) None; EvWrite syncRecord None;
                   EvWrite (keyRecord 1 btnStateReleased) None; EvWrite syncRecord None]).
Proof.
  split; [apply sendBtnEvent_spec|].
  split; [intros key; apply keyRecord_decodes|].
  split; [reflexivity|].
  intros w1 w2 Hdown Hup.
  apply sendBtnEvent_success in Hdown, Hup.
  rewrite Hup, Hdown. cbn [map app keyWritten]. now rewrite <- app_assoc.
Qed.

End DeviceProperties.

(** ** Concrete runs *)

(** The sample effect record read through the struct view. *)
Example rumbleRecord_fields :
  Type' (FFEffect_of_bytes rumbleRecord) = 0x50 /\
  ID (FFEffect_of_bytes rumbleRecord) = 3 /\
  Length (Replay (FFEffect_of_bytes rumbleRecord)) = 1000 /\
  wf_FFEffect (FFEffect_of_bytes rumbleRecord) /\
  FFEffect_to_bytes (FFEffect_of_bytes rumbleRecord) = rumbleRecord.
Proof. repeat split; reflexivity. Qed.

(** The end-to-end exchange of the spec: the control event with code upload
    and value 7 leads to the begin-upload call for request 7, one call of the
    callback on the populated request, and the end-upload call that carries
    the callback's result 5 for request 7. *)
Example upload_run :
  forceFeedbackCallback uploadKernel (Some acceptAll) (start 0) =
    (None,
     mkWorld 0%nat
       [EvRead 24 (eventBytes (controlEvent uiFFUpload 7)) None;
        EvIoctl uiBeginFFUpload
          (ArgUpload (UInputFFUpload.mk 7 0 zeroFFEffect zeroFFEffect)) 0;
        EvCallback
          (Some (UInputFFUpload.mk 7 0 (FFEffect_of_bytes rumbleRecord) zeroFFEffect))
          None 5;
        EvIoctl uiEndFFUpload
          (ArgUpload (UInputFFUpload.mk 7 5 (FFEffect_of_bytes rumbleRecord) zeroFFEffect))
          0]).
Proof. vm_compute. reflexivity. Qed.

(** C2 as stated fails: the id of the request is the event's value only as
    an unsigned number. For the control event with code upload and value -1
    the request handed to the kernel, and the one handed back, carry the id
    4294967295. *)
Lemma C2_counterexample :
  fst (readEvent negativeUploadKernel (start 0)) =
    (Some (controlEvent uiFFUpload (-1)), None) /\
  forceFeedbackCallback negativeUploadKernel (Some acceptAll) (start 0) =
    (None,
     mkWorld 0%nat
       [EvRead 24 (eventBytes (controlEvent uiFFUpload (-1))) None;
        EvIoctl uiBeginFFUpload
          (ArgUpload (UInputFFUpload.mk 4294967295 0 zeroFFEffect zeroFFEffect)) 0;
        EvCallback
          (Some (UInputFFUpload.mk 4294967295 0 (FFEffect_of_bytes rumbleRecord)
                   zeroFFEffect))
          None 5;
        EvIoctl uiEndFFUpload
          (ArgUpload (UInputFFUpload.mk 4294967295 5 (FFEffect_of_bytes rumbleRecord)
                        zeroFFEffect))
          0]) /\
  4294967295 <> Value (controlEvent uiFFUpload (-1)).
Proof.
  split; [vm_compute; reflexivity|]. split; [vm_compute; reflexivity|]. discriminate.
Qed.

Lemma C2_upload_path_witness :
  let w := start 0 in
  let ie := controlEvent uiFFUpload 7 in
  let w1 := snd (readEvent uploadKernel w) in
  readEvent uploadKernel w = (Some ie, None, w1) /\
  Type_ ie = evUinput /\ Code ie = uiFFUpload /\
  upload_exchange uploadKernel acceptAll ie w1
    (forceFeedbackCallback uploadKernel (Some acceptAll) w).
Proof.
  intros w ie w1.
  assert (Hread : readEvent uploadKernel w = (Some ie, None, w1)) by (vm_compute; reflexivity).
  assert (Htype : Type_ ie = evUinput) by reflexivity.
  assert (Hcode : Code ie = uiFFUpload) by reflexivity.
  split; [exact Hread|]. split; [exact Htype|]. split; [exact Hcode|].
  exact (C2_upload_path uploadKernel acceptAll w w1 ie Hread Htype Hcode).
Defined.

(** C3 as stated fails: on a device that accepts one write and rejects the
    next, [sendBtnEvent] on two codes hands over the first key record, has
    the second one rejected, returns the error, and never writes the
    synchronization record. *)
Lemma C3_counterexample :
  sendBtnEvent idleKernel [1; 2] btnStatePressed (start 1) =
    (Some (Errorf "writing btnEvent structure to the device file failed"
             (FileError "write failed")),
     mkWorld 0%nat
       [EvWrite (keyRecord 1 btnStatePressed) None;
        EvWrite (keyRecord 2 btnStatePressed) (Some (FileError "write failed"))]) /\
  ~ In syncRecord
      (written (trace (snd (sendBtnEvent idleKernel [1; 2] btnStatePressed (start 1))))).
Proof.
  split; [vm_compute; reflexivity|].
  vm_compute. intros [H|[H|[]]]; discriminate H.
Qed.

Lemma C3_sendBtnEvent_witness :
  let w := start 4 in
  let w1 := snd (KeyDown idleKernel 1 w) in
  let w2 := snd (KeyUp idleKernel 1 w1) in
  KeyDown idleKernel 1 w = (None, w1) /\
  KeyUp idleKernel 1 w1 = (None, w2) /\
  trace w2 =
    trace w ++ [EvWrite (keyRecord 1 btnStatePressed) None; EvWrite syncRecord None;
                EvWrite (keyRecord 1 btnStateReleased) None; EvWrite syncRecord None].
Proof.
  intros w w1 w2.
  assert (Hdown : KeyDown idleKernel 1 w = (None, w1)) by (vm_compute; reflexivity).
  assert (Hup : KeyUp idleKernel 1 w1 = (None, w2)) by (vm_compute; reflexivity).
  split; [exact Hdown|]. split; [exact Hup|].
  exact (proj2 (proj2 (proj2 (C3_sendBtnEvent idleKernel [1] btnStatePressed w)))
           w1 w2 Hdown Hup).
Defined.

(** C4 as stated fails: with a nil callback the device file is read before
    anything is returned, and the error for the nil callback comes only
    after an event was read; when the read delivers nothing, what is
    returned is the end-of-file error of the read. *)
Lemma C4_counterexample :
  forceFeedbackCallback keyEventKernel None (start 0) =
    (Some (ErrorString "callback was nil"),
     mkWorld 0%nat [EvRead 24 (eventBytes sampleEvent) None]) /\
  forceFeedbackCallback idleKernel None (start 0) =
    (Some (Errorf "reading input event from device file failed" ErrEOF),
     mkWorld 0%nat [EvRead 24 [] None]).
Proof. split; vm_compute; reflexivity. Qed.

(** C5 as stated fails: when the kernel rejects the device-destroy control
    call, [closeDevice] returns that error and does not close the file. *)
Lemma C5_counterexample :
  closeDevice noDestroyKernel (start 0) =
    (Some (Errorf "failed to close device" (Errno 22)),
     mkWorld 0%nat [EvIoctl uiDevDestroy (ArgWord 0) 22]) /\
  count is_close (trace (snd (closeDevice noDestroyKernel (start 0)))) = 0%nat.
Proof. split; vm_compute; reflexivity. Qed.

(** C9 as stated fails: the event read is a key event, not a control event,
    and the exchange called with a nil callback returns an error. *)
Lemma C9_counterexample :
  fst (readEvent keyEventKernel (start 0)) = (Some sampleEvent, None) /\
  Type_ sampleEvent <> evUinput /\
  fst (forceFeedbackCallback keyEventKernel None (start 0)) =
    Some (ErrorString "callback was nil").
Proof.
  split; [vm_compute; reflexivity|]. split; [discriminate|]. vm_compute; reflexivity.
Qed.

Lemma C9_other_type_ignored_witness :
  let w := start 0 in
  let w1 := snd (readEvent keyEventKernel w) in
  readEvent keyEventKernel w = (Some sampleEvent, None, w1) /\
  Type_ sampleEvent <> evUinput /\
  forceFeedbackCallback keyEventKernel (Some acceptAll) w = (None, w1) /\
  count is_callback (trace w1) = count is_callback (trace w) /\
  count is_ioctl (trace w1) = count is_ioctl (trace w).
Proof.
  intros w w1.
  assert (Hread : readEvent keyEventKernel w = (Some sampleEvent, None, w1))
    by (vm_compute; reflexivity).
  assert (Htype : Type_ sampleEvent <> evUinput) by discriminate.
  split; [exact Hread|]. split; [exact Htype|].
  pose proof (C9_other_type_ignored keyEventKernel (Some acceptAll) w w1 sampleEvent
                Hread Htype) as (Hrun & _ & Hcb & Hio).
  split; [exact Hrun|]. split; [exact Hcb | exact Hio].
Defined.

Lemma C10_other_code_ignored_witness :
  let w := start 0 in
  let ie := controlEvent 3 7 in
  let w1 := snd (readEvent otherCodeKernel w) in
  readEvent otherCodeKernel w = (Some ie, None, w1) /\
  Type_ ie = evUinput /\ Code ie <> uiFFUpload /\ Code ie <> uiFFErase /\
  forceFeedbackCallback otherCodeKernel (Some acceptAll) w = (None, w1) /\
  count is_callback (trace w1) = count is_callback (trace w) /\
  count is_ioctl (trace w1) = count is_ioctl (trace w).
Proof.
  intros w ie w1.
  assert (Hread : readEvent otherCodeKernel w = (Some ie, None, w1))
    by (vm_compute; reflexivity).
  assert (Htype : Type_ ie = evUinput) by reflexivity.
  assert (Hupload : Code ie <> uiFFUpload) by discriminate.
  assert (Herase : Code ie <> uiFFErase) by discriminate.
  split; [exact Hread|]. split; [exact Htype|].
  split; [exact Hupload|]. split; [exact Herase|].
  pose proof (C10_other_code_ignored otherCodeKernel acceptAll w w1 ie
                Hread Htype Hupload Herase) as (Hrun & _ & Hcb & Hio).
  split; [exact Hrun|]. split; [exact Hcb | exact Hio].
Defined.

(** * Properties of the rest of the protocol layer *)

(** ** Device names *)

Lemma validateUinputName_ok (name : list byte) :
  validateUinputName name = None <->
  (1 <= length name <= Z.to_nat uinputMaxNameSize)%nat.
Proof.
  unfold validateUinputName, uinputMaxNameSize.
  destruct name as [|b t]; [cbn; split; [discriminate|lia]|].
  destruct (Z.gtb_spec (Z.of_nat (length (b :: t))) 80) as [Hgt|Hle].
  - split; [discriminate|]. cbn [length] in *. lia.
  - split; [|reflexivity]. intros _. cbn [length] in *. lia.
Qed.

(** X1. [validateUinputName] accepts a name exactly when it has between 1
    and 80 bytes; an empty (or nil) name is refused as empty, and a longer
    one with a message that quotes the name and the limit of 80. *)
Theorem X1_validateUinputName (name : list byte) :
  (validateUinputName name = None <-> (1 <= length name <= 80)%nat) /\
  (length name = 0%nat ->
   validateUinputName name = Some (ErrorString "device name may not be empty")) /\
  ((80 < length name)%nat ->
   validateUinputName name =
     Some (ErrorString ("device name " ++ bytes_to_string name ++
                        " is too long (maximum of 80 characters allowed)"))).
Proof.
  split; [apply validateUinputName_ok|]. split.
  - destruct name; [reflexivity|discriminate].
  - intros H. unfold validateUinputName, uinputMaxNameSize.
    destruct name as [|b t]; [cbn in H; lia|].
    destruct (Z.gtb_spec (Z.of_nat (length (b :: t))) 80) as [Hgt|Hle];
      [reflexivity|lia].
Qed.

(** The name of the creation tests, 81 bytes long, and the message they
    expect. *)
Example validateUinputName_too_long :
  validateUinputName
    (list_byte_of_string
       "adsfdsferqewoirueworiuejdsfjdfa;ljoewrjeworiewuoruew;rj;kdlfjoeai;jfewoaifjef;das") =
  Some (ErrorString
    "device name adsfdsferqewoirueworiuejdsfjdfa;ljoewrjeworiewuoruew;rj;kdlfjoeai;jfewoaifjef;das is too long (maximum of 80 characters allowed)").
Proof. vm_compute. reflexivity. Qed.

Lemma copy_spec (dst src : list byte) :
  copy dst src = firstn (length dst) src ++ skipn (length src) dst /\
  length (copy dst src) = length dst.
Proof.
  unfold copy. rewrite length_firstn.
  destruct (Nat.le_ge_cases (length dst) (length src)) as [H|H].
  - rewrite Nat.min_l by exact H. rewrite !skipn_all2 by lia.
    split; [reflexivity|]. rewrite app_nil_r, length_firstn. lia.
  - rewrite Nat.min_r by exact H. split; [reflexivity|].
    rewrite length_app, length_firstn, length_skipn. lia.
Qed.

Lemma toUinputName_eq (name : list byte) :
  toUinputName name = firstn 80 name ++ repeat Byte.x00 (80 - length name).
Proof.
  unfold toUinputName, uinputMaxNameSize.
  destruct (copy_spec (repeat Byte.x00 (Z.to_nat 80)) name) as [E _].
  rewrite repeat_length in E. change (Z.to_nat 80) with 80%nat in *.
  rewrite E. f_equal.
  apply (nth_ext _ _ Byte.x00 Byte.x00).
  - rewrite length_skipn, !repeat_length. reflexivity.
  - intros i _. rewrite nth_skipn, !nth_repeat. reflexivity.
Qed.

(** X2. [toUinputName] always returns 80 bytes: the first 80 bytes of the
    name, followed by zero bytes when the name is shorter. A name of more
    than 80 bytes is cut without notice. *)
Theorem X2_toUinputName (name : list byte) :
  length (toUinputName name) = 80%nat /\
  toUinputName name = firstn 80 name ++ repeat Byte.x00 (80 - length name).
Proof.
  split; [|apply toUinputName_eq].
  rewrite toUinputName_eq, length_app, length_firstn, repeat_length. lia.
Qed.

(** X3. A name that [validateUinputName] accepts is stored whole: the fixed
    field is the name followed by zero bytes up to 80, so the name is the
    field's prefix of the same length. *)
Theorem X3_toUinputName_valid (name : list byte)
    (Hvalid : validateUinputName name = None) :
  toUinputName name = name ++ repeat Byte.x00 (80 - length name) /\
  firstn (length name) (toUinputName name) = name.
Proof.
  apply validateUinputName_ok in Hvalid. change (Z.to_nat uinputMaxNameSize) with 80%nat in Hvalid.
  rewrite toUinputName_eq, firstn_all2 by lia. split; [reflexivity|].
  rewrite firstn_app, Nat.sub_diag, firstn_all. cbn. apply app_nil_r.
Qed.

Lemma X3_toUinputName_valid_witness :
  validateUinputName (list_byte_of_string "testkeyboard") = None /\
  toUinputName (list_byte_of_string "testkeyboard") =
    list_byte_of_string "testkeyboard" ++ repeat Byte.x00 68.
Proof.
  assert (H : validateUinputName (list_byte_of_string "testkeyboard") = None)
    by reflexivity.
  split; [exact H|].
  exact (proj1 (X3_toUinputName_valid (list_byte_of_string "testkeyboard") H)).
Defined.

(** ** More on the event codec *)

Lemma slice_length (off n : nat) (buf : list byte) :
  (off + n <= length buf)%nat -> length (slice off n buf) = n.
Proof.
  intros H. unfold slice. rewrite length_firstn, length_skipn. lia.
Qed.

Lemma slice_cat (off n m : nat) (buf : list byte) :
  slice off (n + m) buf = slice off n buf ++ slice (off + n) m buf.
Proof.
  unfold slice. rewrite <- (firstn_skipn n (firstn (n + m) (skipn off buf))).
  rewrite firstn_firstn, Nat.min_l by lia. f_equal.
  rewrite skipn_firstn_comm, skipn_skipn.
  f_equal; [lia|]. f_equal. lia.
Qed.

Lemma to_signed_mod (n x : Z) :
  0 < n -> to_signed n x mod 2 ^ n = x mod 2 ^ n.
Proof.
  intros Hn. unfold to_signed.
  assert (Hp : 0 < 2 ^ n) by (apply Z.pow_pos_nonneg; lia).
  rewrite Zminus_mod, Zmod_mod, <- Zminus_mod. f_equal. lia.
Qed.

Lemma to_signed_range (n x : Z) :
  0 < n -> - 2 ^ (n - 1) <= to_signed n x < 2 ^ (n - 1).
Proof.
  intros Hn. unfold to_signed.
  assert (Hp : 2 ^ n = 2 * 2 ^ (n - 1)).
  { replace n with (Z.succ (n - 1)) at 1 by lia. rewrite Z.pow_succ_r; lia. }
  assert (Hh : 0 < 2 ^ (n - 1)) by (apply Z.pow_pos_nonneg; lia).
  pose proof (Z.mod_pos_bound (x + 2 ^ (n - 1)) (2 ^ n) ltac:(lia)). lia.
Qed.

(** Writing back a signed field that was read from [n] bytes gives these
    bytes again; the same for an unsigned one. *)
Lemma le_split_signed (n : nat) (bs : list byte) :
  length bs = n -> (0 < n)%nat ->
  le_split n (to_signed (Z.of_nat n * 8) (le_combine bs)) = bs.
Proof.
  intros Hl Hn. rewrite le_split_mod, to_signed_mod by lia.
  rewrite <- le_split_mod. now apply split_le_combine'.
Qed.

Lemma decodeFields_wf (buffer : list byte) : wf_inputEvent (decodeFields buffer).
Proof.
  assert (Hs : forall off n, (length (slice off n buffer) <= n)%nat).
  { intros. unfold slice. rewrite length_firstn. lia. }
  assert (Hu : forall off, is_uint16 (le_combine (slice off 2 buffer))).
  { intros off. unfold is_uint16.
    pose proof (le_combine_bound (slice off 2 buffer)) as Hb.
    pose proof (Hs off 2%nat) as Hl.
    assert (2 ^ (8 * Z.of_nat (length (slice off 2 buffer))) <= 2 ^ 16)
      by (apply Z.pow_le_mono_r; lia).
    lia. }
  unfold wf_inputEvent, decodeFields. cbn [Time Sec Usec Type_ Code Value].
  repeat split; try apply Hu;
    try (apply (to_signed_range 64); lia); apply (to_signed_range 32); lia.
Qed.

Lemma encode_decodeFields (buffer : list byte) :
  (inputEventSize <= length buffer)%nat ->
  fst (inputEventToBuffer (decodeFields buffer)) = firstn inputEventSize buffer.
Proof.
  unfold inputEventSize. intros H.
  unfold inputEventToBuffer, binary_Write_inputEvent, decodeFields.
  cbn [fst Time Sec Usec Type_ Code Value]. unfold int64, int32.
  rewrite (le_split_signed 8), (le_split_signed 8), (le_split_signed 4)
    by (try apply slice_length; lia).
  rewrite !split_le_combine' by (apply slice_length; lia).
  change (firstn 24 buffer) with (slice 0 24 buffer).
  change 24%nat with (8 + (8 + (2 + (2 + 4))))%nat.
  rewrite !slice_cat. reflexivity.
Qed.

(** X4. [inputEventFromBuffer] fails exactly on buffers of fewer than 24
    bytes, with the end-of-file error for an empty buffer and the
    unexpected-end-of-file error for a short one. On a longer buffer it
    decodes the first 24 bytes and ignores the rest. *)
Theorem X4_inputEventFromBuffer_length (buffer extra : list byte) :
  (fst (inputEventFromBuffer buffer) <> None <-> (24 <= length buffer)%nat) /\
  (snd (inputEventFromBuffer buffer) = None <-> (24 <= length buffer)%nat) /\
  (length buffer = 0%nat ->
   inputEventFromBuffer buffer =
     (None, Some (Errorf "failed to read buffer to input event" ErrEOF))) /\
  ((0 < length buffer < 24)%nat ->
   inputEventFromBuffer buffer =
     (None, Some (Errorf "failed to read buffer to input event" ErrUnexpectedEOF))) /\
  ((24 <= length buffer)%nat ->
   inputEventFromBuffer (buffer ++ extra) = inputEventFromBuffer buffer).
Proof.
  assert (Hshort : (0 < length buffer < 24)%nat ->
            inputEventFromBuffer buffer =
              (None, Some (Errorf "failed to read buffer to input event" ErrUnexpectedEOF))).
  { intros [H0 H]. unfold inputEventFromBuffer, binary_Read_inputEvent, inputEventSize.
    destruct buffer as [|b t]; [cbn in H0; lia|].
    apply Nat.ltb_lt in H. now rewrite H. }
  assert (Hempty : length buffer = 0%nat ->
            inputEventFromBuffer buffer =
              (None, Some (Errorf "failed to read buffer to input event" ErrEOF))).
  { destruct buffer; [reflexivity|discriminate]. }
  assert (Hfull : (24 <= length buffer)%nat ->
            inputEventFromBuffer buffer = (Some (decodeFields buffer), None)).
  { apply inputEventFromBuffer_full. }
  assert (Hcases : (length buffer = 0 \/ 0 < length buffer < 24 \/ 24 <= length buffer)%nat)
    by lia.
  split; [|split; [|split; [exact Hempty|split; [exact Hshort|]]]].
  - destruct Hcases as [H|[H|H]];
      [rewrite (Hempty H)|rewrite (Hshort H)|rewrite (Hfull H)]; cbn; split;
      try congruence; try lia.
  - destruct Hcases as [H|[H|H]];
      [rewrite (Hempty H)|rewrite (Hshort H)|rewrite (Hfull H)]; cbn; split;
      try congruence; try lia.
  - intros H. rewrite (Hfull H).
    rewrite inputEventFromBuffer_full by (rewrite length_app; unfold inputEventSize; lia).
    f_equal. f_equal. unfold decodeFields, slice.
    assert (Hs : forall off n, (off + n <= 24)%nat ->
              firstn n (skipn off (buffer ++ extra)) = firstn n (skipn off buffer)).
    { intros off n Hb. rewrite skipn_app, firstn_app.
      rewrite length_skipn. replace (n - (length buffer - off))%nat with 0%nat by lia.
      cbn. apply app_nil_r. }
    now rewrite !Hs by lia.
Qed.

(** X5. Whatever 24 bytes (or more) are decoded, the record obtained has
    every field in the range of its Go type, and encoding it gives the first
    24 bytes back: decoding loses nothing of a 24-byte buffer. *)
Theorem X5_encode_decode (buffer : list byte) (Hlen : (24 <= length buffer)%nat) :
  exists e : inputEvent,
    inputEventFromBuffer buffer = (Some e, None) /\
    wf_inputEvent e /\
    inputEventToBuffer e = (firstn 24 buffer, None).
Proof.
  exists (decodeFields buffer).
  split; [now apply inputEventFromBuffer_full|]. split; [apply decodeFields_wf|].
  rewrite (surjective_pairing (inputEventToBuffer (decodeFields buffer))).
  rewrite encode_decodeFields by exact Hlen. reflexivity.
Qed.

Lemma X5_encode_decode_witness :
  (24 <= length rumbleRecord)%nat /\
  exists e : inputEvent,
    inputEventFromBuffer rumbleRecord = (Some e, None) /\
    wf_inputEvent e /\
    inputEventToBuffer e = (firstn 24 rumbleRecord, None).
Proof.
  assert (H : (24 <= length rumbleRecord)%nat) by (vm_compute; repeat constructor).
  split; [exact H | exact (X5_encode_decode rumbleRecord H)].
Defined.

(** X19. [inputEventToBuffer] never fails and always produces 24 bytes; on
    records whose fields are in the range of their Go types it is
    injective: two records have the same wire form only if they are the
    same record. *)
Theorem X19_inputEventToBuffer_injective (e1 e2 : inputEvent)
    (Hwf1 : wf_inputEvent e1) (Hwf2 : wf_inputEvent e2) :
  snd (inputEventToBuffer e1) = None /\
  length (fst (inputEventToBuffer e1)) = 24%nat /\
  (inputEventToBuffer e1 = inputEventToBuffer e2 <-> e1 = e2).
Proof.
  split; [reflexivity|]. split; [apply encode_length|].
  split; [|now intros ->].
  intros H. rewrite <- (decode_encode e1 Hwf1), <- (decode_encode e2 Hwf2).
  now rewrite H.
Qed.

Lemma X19_inputEventToBuffer_injective_witness :
  wf_inputEvent sampleEvent /\ wf_inputEvent (controlEvent uiFFUpload 7) /\
  (inputEventToBuffer sampleEvent = inputEventToBuffer (controlEvent uiFFUpload 7) <->
   sampleEvent = controlEvent uiFFUpload 7).
Proof.
  assert (H1 : wf_inputEvent sampleEvent) by (repeat split; cbv; congruence).
  assert (H2 : wf_inputEvent (controlEvent uiFFUpload 7)) by (repeat split; cbv; congruence).
  split; [exact H1|]. split; [exact H2|].
  exact (proj2 (proj2 (X19_inputEventToBuffer_injective sampleEvent
                         (controlEvent uiFFUpload 7) H1 H2))).
Defined.

(** ** More on the device code *)

Section MoreDeviceProperties.

Context {K : Type} (kern : Kernel K).

Lemma skipn_zeros (n m : nat) :
  skipn n (repeat Byte.x00 m) = repeat Byte.x00 (m - n).
Proof.
  apply (nth_ext _ _ Byte.x00 Byte.x00).
  - rewrite length_skipn, !repeat_length. reflexivity.
  - intros i _. rewrite nth_skipn, !nth_repeat. reflexivity.
Qed.

(** X6. [readEvent] is one read of 24 bytes and has two outcomes. A failed
    read gives the read error, and so does a read that delivers nothing,
    which the file object reports as end of file; any other read gives an
    event, decoded from the delivered bytes followed by zero bytes up to 24.
    So it never returns neither an event nor an error, and it never reports
    a decoding error, also when fewer than 24 bytes arrive. *)
Theorem X6_readEvent_outcomes (w : World K) :
  exists (data : list byte) (rerr : option error),
    trace (snd (readEvent kern w)) = trace w ++ [EvRead 24 data rerr] /\
    (length data <= 24)%nat /\
    fst (readEvent kern w) =
      match rerr with
      | Some e => (None, Some (Errorf "reading input event from device file failed" e))
      | None =>
        match data with
        | [] => (None, Some (Errorf "reading input event from device file failed" ErrEOF))
        | _ => (Some (decodeFields (data ++ repeat Byte.x00 (24 - length data))), None)
        end
      end /\
    fst (readEvent kern w) <> (None, None).
Proof.
  destruct (readEvent_spec kern w) as (data & rerr & k' & Hlen & E).
  exists data, rerr. rewrite E. cbn [fst snd log trace].
  split; [reflexivity|]. split; [exact Hlen|].
  destruct rerr as [e|]; [split; [reflexivity|discriminate]|].
  destruct data as [|b t]; [split; [reflexivity|discriminate]|].
  rewrite skipn_zeros. split; [reflexivity|discriminate].
Qed.

Lemma read_error_data (buf : list byte) (b : byte) (t : list byte) (err : option error) :
  read_error buf (b :: t) err = err.
Proof. destruct err, buf; reflexivity. Qed.

(** X7. When the kernel answers the read with the 24 bytes that
    [inputEventToBuffer] produces for a record, [readEvent] returns that
    record: an event written by one end is read by the other unchanged. *)
Theorem X7_readEvent_roundtrip (w : World K) (e : inputEvent) (k' : K)
    (Hwf : wf_inputEvent e)
    (Hkernel : k_read kern (kstate w) 24 = (fst (inputEventToBuffer e), None, k')) :
  readEvent kern w =
    (Some e, None, mkWorld k' (trace w ++ [EvRead 24 (fst (inputEventToBuffer e)) None])).
Proof.
  unfold readEvent, bind, file_Read. rewrite repeat_length, Hkernel.
  pose proof (encode_length e) as Hl. unfold inputEventSize in Hl.
  pose proof (decode_encode e Hwf) as Hdec.
  set (buf := fst (inputEventToBuffer e)) in *.
  rewrite (firstn_all2 (n := 24) buf) by (rewrite Hl; apply Nat.le_refl).
  rewrite Hl. change (skipn 24 (repeat Byte.x00 24)) with (@nil byte).
  rewrite app_nil_r. change (Z.of_nat 24 =? 0) with false.
  assert (Herr : read_error (repeat Byte.x00 24) buf None = None).
  { destruct buf as [|b t]; [discriminate Hl|apply read_error_data]. }
  rewrite Herr. cbv iota.
  rewrite inputEventFromBuffer_full by (rewrite Hl; apply Nat.le_refl).
  rewrite Hdec. reflexivity.
Qed.

End MoreDeviceProperties.

Lemma X7_readEvent_roundtrip_witness :
  wf_inputEvent sampleEvent /\
  k_read keyEventKernel (kstate (start 0)) 24 =
    (fst (inputEventToBuffer sampleEvent), None, 0%nat) /\
  readEvent keyEventKernel (start 0) =
    (Some sampleEvent, None,
     mkWorld 0%nat [EvRead 24 (fst (inputEventToBuffer sampleEvent)) None]).
Proof.
  assert (Hwf : wf_inputEvent sampleEvent) by (repeat split; cbv; congruence).
  assert (Hk : k_read keyEventKernel (kstate (start 0)) 24 =
                 (fst (inputEventToBuffer sampleEvent), None, 0%nat)) by reflexivity.
  split; [exact Hwf|]. split; [exact Hk|].
  exact (X7_readEvent_roundtrip keyEventKernel (start 0) sampleEvent 0%nat Hwf Hk).
Defined.

(** ** The exchange as a whole, and the erase path *)

Section ExchangeProperties.

Context {K : Type} (kern : Kernel K).

(** X8. Whatever the kernel, the event and the callback, one exchange
    begins with exactly one read and then adds to the trace either nothing,
    or a rejected begin call, or a begin call, one callback call and the
    matching end call, in this order. So it never writes to the device or
    closes it, never calls the callback more than once or with both or
    neither pointer nil, never calls it unless the begin call succeeded, and
    never issues an end call without the callback having run. After a failed
    or empty read, and with a nil callback, nothing follows the read; a
    failed read is returned as an error, and so is an empty read, as the
    end-of-file error, whatever the callback. *)
Theorem X8_exchange_shape (callback : option Callback) (w : World K) :
  exists (data : list byte) (rerr : option error) (T : list SysEvent),
    trace (snd (forceFeedbackCallback kern callback w)) =
      trace w ++ EvRead 24 data rerr :: T /\
    ExchangeTail T /\
    (rerr <> None \/ data = [] \/ callback = None -> T = []) /\
    (forall e : error, rerr = Some e ->
       fst (forceFeedbackCallback kern callback w) =
         Some (Errorf "reading input event from device file failed" e)) /\
    (rerr = None -> data = [] ->
       fst (forceFeedbackCallback kern callback w) =
         Some (Errorf "reading input event from device file failed" ErrEOF)).
Proof.
  destruct (readEvent_spec kern w) as (data & rerr & k' & _ & E).
  exists data, rerr. unfold forceFeedbackCallback, bind. rewrite E.
  destruct rerr as [e|].
  { exists []. cbn [fst snd log trace]. split; [reflexivity|]. split; [constructor|].
    split; [auto|]. split; [now intros e' [= <-]|discriminate]. }
  destruct data as [|b t].
  { exists []. cbn [fst snd log trace]. split; [reflexivity|]. split; [constructor|].
    split; [auto|]. split; [discriminate|reflexivity]. }
  set (ie := decodeFields _).
  assert (Hres : forall (P : error -> Prop) (Q : Prop),
            (forall e : error, @None error = Some e -> P e) /\
            (@None error = None -> b :: t = [] -> Q)).
  { intros P Q. split; [intros e H|intros _ H]; discriminate H. }
  destruct callback as [cb|].
  2:{ exists []. cbn [snd log trace]. split; [reflexivity|]. split; [constructor|].
      split; [auto|apply Hres]. }
  assert (Hno : forall T : list SysEvent,
            None <> @None error \/ b :: t = [] \/ Some cb = @None Callback -> T = []).
  { intros T [H|[H|H]]; congruence. }
  destruct (Type_ ie =? evUinput).
  2:{ exists []. cbn [snd log trace]. split; [reflexivity|]. split; [constructor|].
      split; [auto|apply Hres]. }
  destruct (Code ie =? uiFFUpload).
  { unfold ioctl_upload, call_upload, log, ret, errno_error. cbn [kstate trace].
    destruct (k_ioctl_upload kern k' uiBeginFFUpload _) as [[populated errno1] k1].
    destruct (Z.eqb_spec errno1 0) as [->|Hne].
    - cbn [kstate trace].
      destruct (k_ioctl_upload kern k1 uiEndFFUpload _) as [[final errno2] k2].
      eexists. split.
      { destruct (errno2 =? 0); cbn [snd trace]; rewrite <- !app_assoc; reflexivity. }
      split; [constructor|]. split; [apply Hno|apply Hres].
    - eexists. split; [cbn [snd trace]; rewrite <- app_assoc; reflexivity|].
      split; [now constructor|]. split; [apply Hno|apply Hres]. }
  destruct (Code ie =? uiFFErase).
  { unfold ioctl_erase, call_erase, log, ret, errno_error. cbn [kstate trace].
    destruct (k_ioctl_erase kern k' uiBeginFFErase _) as [[populated errno1] k1].
    destruct (Z.eqb_spec errno1 0) as [->|Hne].
    - cbn [kstate trace].
      destruct (k_ioctl_erase kern k1 uiEndFFErase _) as [[final errno2] k2].
      eexists. split.
      { destruct (errno2 =? 0); cbn [snd trace]; rewrite <- !app_assoc; reflexivity. }
      split; [constructor|]. split; [apply Hno|apply Hres].
    - eexists. split; [cbn [snd trace]; rewrite <- app_assoc; reflexivity|].
      split; [now constructor|]. split; [apply Hno|apply Hres]. }
  exists []. cbn [snd log trace]. split; [reflexivity|]. split; [constructor|].
  split; [auto|apply Hres].
Qed.

(** X9. When the event read is of the uinput control type with code
    FF-erase and the callback is non-nil, the exchange runs the erase path:
    a request whose id is the event's value converted to an unsigned 32-bit
    number and whose return value and effect id are zero, the begin-erase
    control call on it, then one call of the callback on a nil upload
    pointer and the request as the kernel left it, and the end-erase control
    call on the request the callback left, with the callback's result as its
    return value and its id and effect id untouched. A begin call the kernel
    rejects ends the exchange with an error before the callback runs; a
    rejected end call is returned as an error. *)
Theorem X9_erase_path (callback : Callback) (w w1 : World K) (ie : inputEvent)
    (Hread : readEvent kern w = (Some ie, None, w1))
    (Htype : Type_ ie = evUinput) (Hcode : Code ie = uiFFErase) :
  erase_exchange kern callback ie w1 (forceFeedbackCallback kern (Some callback) w).
Proof.
  unfold erase_exchange, forceFeedbackCallback, bind.
  rewrite Hread, Htype, Hcode, !Z.eqb_refl.
  change (uiFFErase =? uiFFUpload) with false. cbv iota.
  unfold ioctl_erase, call_erase, log, ret, errno_error. cbn [kstate trace].
  change (UInputFFErase.setRequestID (uint32 (Value ie)) UInputFFErase.zero)
    with (UInputFFErase.mk (Value ie mod 2 ^ 32) 0 0).
  destruct (k_ioctl_erase kern (kstate w1) uiBeginFFErase _)
    as [[populated errno1] k1].
  destruct (Z.eqb_spec errno1 0) as [->|Hne].
  - cbn [kstate trace].
    set (left := match cbErase (callback None (Some populated)) with
                 | Some r => r
                 | None => populated
                 end).
    change (UInputFFErase.setReturnValue (cbReturn (callback None (Some populated))) left)
      with (UInputFFErase.mk (UInputFFErase.RequestID left)
              (cbReturn (callback None (Some populated))) (UInputFFErase.EffectID left)).
    destruct (k_ioctl_erase kern k1 uiEndFFErase _) as [[final errno2] k2].
    eexists. split.
    { destruct (errno2 =? 0); cbn [snd trace]; rewrite <- !app_assoc; reflexivity. }
    right. split; [reflexivity|].
    exists errno2. split; [reflexivity|].
    destruct (errno2 =? 0); reflexivity.
  - eexists. split; [reflexivity|]. left. repeat split; auto.
Qed.

End ExchangeProperties.

Lemma X9_erase_path_witness :
  let w := start 0 in
  let ie := controlEvent uiFFErase 9 in
  let w1 := snd (readEvent eraseKernel w) in
  readEvent eraseKernel w = (Some ie, None, w1) /\
  Type_ ie = evUinput /\ Code ie = uiFFErase /\
  erase_exchange eraseKernel acceptAll ie w1
    (forceFeedbackCallback eraseKernel (Some acceptAll) w).
Proof.
  intros w ie w1.
  assert (Hread : readEvent eraseKernel w = (Some ie, None, w1)) by (vm_compute; reflexivity).
  assert (Htype : Type_ ie = evUinput) by reflexivity.
  assert (Hcode : Code ie = uiFFErase) by reflexivity.
  split; [exact Hread|]. split; [exact Htype|]. split; [exact Hcode|].
  exact (X9_erase_path eraseKernel acceptAll w w1 ie Hread Htype Hcode).
Defined.

(** The erase exchange on the sample kernel: request 9 is answered with the
    callback's result 5. *)
Example erase_run :
  forceFeedbackCallback eraseKernel (Some acceptAll) (start 0) =
    (None,
     mkWorld 0%nat
       [EvRead 24 (eventBytes (controlEvent uiFFErase 9)) None;
        EvIoctl uiBeginFFErase (ArgErase (UInputFFErase.mk 9 0 0)) 0;
        EvCallback None (Some (UInputFFErase.mk 9 0 0)) 5;
        EvIoctl uiEndFFErase (ArgErase (UInputFFErase.mk 9 5 0)) 0]).
Proof. vm_compute. reflexivity. Qed.

(** ** Registration and creation *)

Lemma write_int32s_length (table : list Z) :
  length (write_int32s table) = (4 * length table)%nat.
Proof.
  unfold write_int32s. induction table as [|x r IH]; [reflexivity|].
  cbn [flat_map length]. rewrite length_app, length_le_split, IH. lia.
Qed.

Lemma descriptor_length (dev : uinputUserDev) :
  wf_uinputUserDev dev ->
  length (fst (binary_Write_uinputUserDev dev)) = uinputUserDevSize.
Proof.
  intros (Hn & H1 & H2 & H3 & H4).
  unfold binary_Write_uinputUserDev, uinputUserDevSize. cbn [fst].
  rewrite !length_app, !length_le_split, !write_int32s_length, Hn, H1, H2, H3, H4.
  reflexivity.
Qed.

(** Where the fields lie in the serialized descriptor. *)
Lemma descriptor_slices (dev : uinputUserDev) (Hwf : wf_uinputUserDev dev) :
  let wire := fst (binary_Write_uinputUserDev dev) in
  slice 0 80 wire = Name dev /\
  slice 80 8 wire =
    le_split 2 (Bustype (ID_ dev)) ++ le_split 2 (Vendor (ID_ dev)) ++
    le_split 2 (Product (ID_ dev)) ++ le_split 2 (Version (ID_ dev)) /\
  slice 88 4 wire = le_split 4 (EffectsMax dev) /\
  slice 92 256 wire = write_int32s (Absmax dev) /\
  slice 348 256 wire = write_int32s (Absmin dev) /\
  slice 604 256 wire = write_int32s (Absfuzz dev) /\
  slice 860 256 wire = write_int32s (Absflat dev).
Proof.
  intros wire.
  destruct Hwf as (Hn & H1 & H2 & H3 & H4).
  change (Z.to_nat uinputMaxNameSize) with 80%nat in Hn. unfold absSize in *.
  assert (L1 : length (write_int32s (Absmax dev)) = 256%nat)
    by (rewrite write_int32s_length, H1; reflexivity).
  assert (L2 : length (write_int32s (Absmin dev)) = 256%nat)
    by (rewrite write_int32s_length, H2; reflexivity).
  assert (L3 : length (write_int32s (Absfuzz dev)) = 256%nat)
    by (rewrite write_int32s_length, H3; reflexivity).
  assert (L4 : length (write_int32s (Absflat dev)) = 256%nat)
    by (rewrite write_int32s_length, H4; reflexivity).
  subst wire. unfold binary_Write_uinputUserDev. cbn [fst].
  set (ids := le_split 2 (Bustype (ID_ dev)) ++ le_split 2 (Vendor (ID_ dev)) ++
              le_split 2 (Product (ID_ dev)) ++ le_split 2 (Version (ID_ dev))).
  assert (Li : length ids = 8%nat)
    by (subst ids; rewrite !length_app, !length_le_split; reflexivity).
  replace (Name dev ++ _) with
    (Name dev ++ ids ++ le_split 4 (EffectsMax dev) ++ write_int32s (Absmax dev) ++
     write_int32s (Absmin dev) ++ write_int32s (Absfuzz dev) ++ write_int32s (Absflat dev))
    by (subst ids; now rewrite <- !app_assoc).
  pose proof (length_le_split 4 (EffectsMax dev)) as Le.
  split; [now apply slice_app_0|].
  rewrite !(slice_app_skip _ _ 80 (Name dev)) by (try exact Hn; lia). cbn [Nat.sub].
  split; [now apply slice_app_0|].
  rewrite !(slice_app_skip _ _ 8 ids) by (try exact Li; lia). cbn [Nat.sub].
  split; [now apply slice_app_0|].
  rewrite !(slice_app_skip _ _ 4 (le_split 4 (EffectsMax dev))) by (try exact Le; lia).
  cbn [Nat.sub].
  split; [now apply slice_app_0|].
  rewrite !(slice_app_skip _ _ 256 (write_int32s (Absmax dev))) by (try exact L1; lia).
  cbn [Nat.sub].
  split; [now apply slice_app_0|].
  rewrite !(slice_app_skip _ _ 256 (write_int32s (Absmin dev))) by (try exact L2; lia).
  cbn [Nat.sub].
  split; [now apply slice_app_0|].
  rewrite !(slice_app_skip _ _ 256 (write_int32s (Absfuzz dev))) by (try exact L3; lia).
  cbn [Nat.sub]. now apply slice_all.
Qed.

(** Entry [i] of a serialized table. *)
Lemma write_int32s_entry (table : list Z) (i : nat) :
  (i < length table)%nat ->
  slice (4 * i) 4 (write_int32s table) = le_split 4 (nth i table 0).
Proof.
  unfold write_int32s. revert i. induction table as [|x r IH]; intros i Hi.
  - cbn in Hi. lia.
  - cbn [flat_map]. destruct i as [|j].
    + apply slice_app_0, length_le_split.
    + rewrite (slice_app_skip _ _ 4) by (try apply length_le_split; lia).
      replace (4 * S j - 4)%nat with (4 * j)%nat by lia.
      cbn [nth]. apply IH. cbn [length] in Hi. lia.
Qed.

(** Reading entry [i] of a table back from the serialized descriptor. *)
Lemma table_entry_decodes (wire : list byte) (base : nat) (table : list Z) (i : nat) :
  slice base 256 wire = write_int32s table ->
  length table = 64%nat -> Forall is_int32 table -> (i < 64)%nat ->
  int32 (le_combine (slice (base + 4 * i) 4 wire)) = nth i table 0.
Proof.
  intros Hs Hl Hr Hi.
  rewrite <- (slice_slice base 256 (4 * i) 4) by lia.
  rewrite Hs, write_int32s_entry by lia.
  rewrite le_combine_split. change (Z.of_nat 4 * 8) with 32.
  assert (Hx : is_int32 (nth i table 0)).
  { rewrite Forall_forall in Hr. apply Hr, nth_In. lia. }
  unfold is_int32 in Hx. unfold int32. apply to_signed_unsigned; [lia|].
  change (32 - 1) with 31. lia.
Qed.

Lemma id_decodes (wire : list byte) (a b c d : Z) :
  slice 80 8 wire = le_split 2 a ++ le_split 2 b ++ le_split 2 c ++ le_split 2 d ->
  is_uint16 a -> is_uint16 b -> is_uint16 c -> is_uint16 d ->
  le_combine (slice 80 2 wire) = a /\ le_combine (slice 82 2 wire) = b /\
  le_combine (slice 84 2 wire) = c /\ le_combine (slice 86 2 wire) = d.
Proof.
  unfold is_uint16. intros Hs Ha Hb Hc Hd.
  assert (E0 : slice 80 2 wire = slice 0 2 (slice 80 8 wire))
    by (now rewrite slice_slice by lia).
  assert (E2 : slice 82 2 wire = slice 2 2 (slice 80 8 wire))
    by (now rewrite slice_slice by lia).
  assert (E4 : slice 84 2 wire = slice 4 2 (slice 80 8 wire))
    by (now rewrite slice_slice by lia).
  assert (E6 : slice 86 2 wire = slice 6 2 (slice 80 8 wire))
    by (now rewrite slice_slice by lia).
  rewrite E0, E2, E4, E6, Hs. clear E0 E2 E4 E6 Hs.
  rewrite slice_app_0 by apply length_le_split.
  rewrite !(slice_app_skip _ 2 2 (le_split 2 a)) by (try apply length_le_split; lia).
  cbn [Nat.sub]. rewrite slice_app_0 by apply length_le_split.
  rewrite !(slice_app_skip _ 2 2 (le_split 2 b)) by (try apply length_le_split; lia).
  cbn [Nat.sub]. rewrite slice_app_0 by apply length_le_split.
  rewrite !(slice_app_skip _ 2 2 (le_split 2 c)) by (try apply length_le_split; lia).
  cbn [Nat.sub]. rewrite slice_all by apply length_le_split.
  rewrite !le_combine_split. change (Z.of_nat 2 * 8) with 16.
  now rewrite !Z.mod_small by lia.
Qed.

Lemma sampleDev_wf : wf_uinputUserDev sampleDev.
Proof. repeat split. Qed.

Lemma sampleDev_in_range : in_range_uinputUserDev sampleDev.
Proof.
  assert (R16 : forall x, 0 <= x -> x < 65536 -> is_uint16 x).
  { intros x H0 H1. unfold is_uint16. change (2 ^ 16) with 65536. lia. }
  assert (R32 : forall x, 0 <= x -> x < 1000 -> is_int32 x).
  { intros x H0 H1. unfold is_int32. change (2 ^ 31) with 2147483648. lia. }
  assert (Hz : forall n, Forall is_int32 (repeat 0 n)).
  { intros n. apply Forall_forall. intros x Hx. apply repeat_spec in Hx.
    subst. apply R32; lia. }
  unfold in_range_uinputUserDev, sampleDev.
  cbn [ID_ Bustype Vendor Product Version EffectsMax Absmax Absmin Absfuzz Absflat].
  split; [apply R16; lia|]. split; [apply R16; lia|]. split; [apply R16; lia|].
  split; [apply R16; lia|]. split; [change (2 ^ 32) with 4294967296; lia|].
  split; [constructor; [apply R32; lia | apply Hz]|].
  split; [apply Hz|]. split; apply Hz.
Qed.

Section RegistrationProperties.

Context {K : Type} (kern : Kernel K).

(** X10. The first thing [createUsbDevice] does is write the descriptor,
    as one buffer of 1116 bytes from which every field can be read back at a
    fixed place: the name is bytes [0:80); bus type, vendor, product and
    version are the little-endian 16-bit words at 80, 82, 84 and 86; the
    effects maximum is the 32-bit word at 88; and entry [i] of the tables of
    maxima, minima, fuzz and flat values is the little-endian signed 32-bit
    word at 92 + 4i, 348 + 4i, 604 + 4i and 860 + 4i. *)
Theorem X10_descriptor_wire_format (dev : uinputUserDev) (w : World K) (i : nat)
    (Hwf : wf_uinputUserDev dev) (Hrange : in_range_uinputUserDev dev)
    (Hi : (i < 64)%nat) :
  let wire := fst (binary_Write_uinputUserDev dev) in
  (exists (err : option error) (rest : list SysEvent),
     trace (snd (createUsbDevice kern dev w)) = trace w ++ EvWrite wire err :: rest) /\
  length wire = 1116%nat /\
  slice 0 80 wire = Name dev /\
  le_combine (slice 80 2 wire) = Bustype (ID_ dev) /\
  le_combine (slice 82 2 wire) = Vendor (ID_ dev) /\
  le_combine (slice 84 2 wire) = Product (ID_ dev) /\
  le_combine (slice 86 2 wire) = Version (ID_ dev) /\
  le_combine (slice 88 4 wire) = EffectsMax dev /\
  int32 (le_combine (slice (92 + 4 * i) 4 wire)) = nth i (Absmax dev) 0 /\
  int32 (le_combine (slice (348 + 4 * i) 4 wire)) = nth i (Absmin dev) 0 /\
  int32 (le_combine (slice (604 + 4 * i) 4 wire)) = nth i (Absfuzz dev) 0 /\
  int32 (le_combine (slice (860 + 4 * i) 4 wire)) = nth i (Absflat dev) 0.
Proof.
  intros wire.
  destruct (descriptor_slices dev Hwf) as (Sn & Sid & Se & S1 & S2 & S3 & S4).
  fold wire in Sn, Sid, Se, S1, S2, S3, S4.
  destruct Hrange as (Rb & Rv & Rp & Rver & Re & R1 & R2 & R3 & R4).
  destruct (id_decodes wire _ _ _ _ Sid Rb Rv Rp Rver) as (Ib & Iv & Ip & Iver).
  pose proof Hwf as (_ & L1 & L2 & L3 & L4). unfold absSize in *.
  split.
  { subst wire. unfold createUsbDevice. cbn [binary_Write_uinputUserDev fst].
    unfold bind, file_Write, ioctl, file_Close, log, ret, errno_error.
    destruct (k_write kern (kstate w) _) as [[e|] k1]; cbn [kstate trace].
    - destruct (k_close kern k1) as [cerr k2]. do 2 eexists.
      cbn [snd trace]. rewrite <- !app_assoc. reflexivity.
    - destruct (k_ioctl kern k1 uiDevCreate 0) as [errno k2].
      destruct (errno =? 0); cbn [kstate trace].
      + do 2 eexists. cbn [snd trace]. rewrite <- !app_assoc. reflexivity.
      + destruct (k_close kern k2) as [cerr k3]. do 2 eexists.
        cbn [snd trace]. rewrite <- !app_assoc. reflexivity. }
  split; [now apply descriptor_length|].
  split; [exact Sn|]. split; [exact Ib|]. split; [exact Iv|].
  split; [exact Ip|]. split; [exact Iver|].
  split.
  { rewrite Se, le_combine_split. change (Z.of_nat 4 * 8) with 32.
    now apply Z.mod_small. }
  split; [now apply table_entry_decodes|]. split; [now apply table_entry_decodes|].
  split; now apply table_entry_decodes.
Qed.

(** X11. [registerDevice] issues the set-event-bit control call. If the
    kernel accepts it, nothing else happens and nil is returned. If the
    kernel rejects it, the device is destroyed and then the file is closed,
    whatever the destroy call returned, and an error is always returned:
    the destroy error when there is one, and otherwise a message formatted
    from the nil error; the errno of the rejected call itself is not part of
    the result, and the outcome of closing is dropped. *)
Theorem X11_registerDevice (evType : Z) (w : World K) :
  exists errno : Z,
    (errno = 0 /\
     trace (snd (registerDevice kern evType w)) =
       trace w ++ [EvIoctl uiSetEvBit (ArgWord evType) 0] /\
     fst (registerDevice kern evType w) = None)
    \/
    (errno <> 0 /\
     exists (errno2 : Z) (cerr : option error),
       trace (snd (registerDevice kern evType w)) =
         trace w ++ [EvIoctl uiSetEvBit (ArgWord evType) errno;
                     EvIoctl uiDevDestroy (ArgWord 0) errno2;
                     EvClose cerr] /\
       fst (registerDevice kern evType w) =
         Some (if errno2 =? 0
               then ErrorString "invalid file handle returned from ioctl: <nil>"
               else Errorf "failed to close device" (Errno errno2))).
Proof.
  unfold registerDevice, deferred, releaseDevice, bind, ioctl, file_Close, log, ret,
    errno_error.
  destruct (k_ioctl kern (kstate w) uiSetEvBit evType) as [errno k1].
  exists errno. destruct (Z.eqb_spec errno 0) as [->|Hne].
  - left. repeat split.
  - right. split; [exact Hne|]. cbn [kstate trace].
    destruct (k_ioctl kern k1 uiDevDestroy 0) as [errno2 k2].
    exists errno2.
    destruct (errno2 =? 0); cbn [kstate trace];
      destruct (k_close kern k2) as [cerr k3]; exists cerr;
      cbn [fst snd trace]; now rewrite <- !app_assoc.
Qed.

(** X12. [createUsbDevice] writes the descriptor and then issues the
    device-create control call. It returns the file and no error only when
    both were accepted, and then the file is left open. When the write is
    rejected no control call is made; after a rejected write and after a
    rejected create call the file is closed once and nil is returned with
    the error. *)
Theorem X12_createUsbDevice (dev : uinputUserDev) (w : World K) :
  let wire := fst (binary_Write_uinputUserDev dev) in
  let out := createUsbDevice kern dev w in
  (exists (e : error) (cerr : option error),
     trace (snd out) = trace w ++ [EvWrite wire (Some e); EvClose cerr] /\
     fst out = (None, Some (Errorf "failed to write uidev struct to device file" e)))
  \/
  (exists (errno : Z) (cerr : option error),
     errno <> 0 /\
     trace (snd out) =
       trace w ++ [EvWrite wire None; EvIoctl uiDevCreate (ArgWord 0) errno;
                   EvClose cerr] /\
     fst out = (None, Some (Errorf "failed to create device" (Errno errno))))
  \/
  (trace (snd out) = trace w ++ [EvWrite wire None; EvIoctl uiDevCreate (ArgWord 0) 0] /\
   fst out = (Some deviceFile, None)).
Proof.
  intros wire out. subst wire out.
  unfold createUsbDevice. cbn [binary_Write_uinputUserDev fst].
  unfold bind, file_Write, ioctl, file_Close, log, ret, errno_error.
  destruct (k_write kern (kstate w) _) as [[e|] k1]; cbn [kstate trace].
  - left. destruct (k_close kern k1) as [cerr k2]. exists e, cerr.
    cbn [fst snd trace]. now rewrite <- !app_assoc.
  - right. destruct (k_ioctl kern k1 uiDevCreate 0) as [errno k2].
    destruct (Z.eqb_spec errno 0) as [->|Hne]; cbn [kstate trace].
    + right. cbn [fst snd trace]. now rewrite <- !app_assoc.
    + left. destruct (k_close kern k2) as [cerr k3]. exists errno, cerr.
      cbn [fst snd trace]. now rewrite <- !app_assoc.
Qed.

(** X13. [sendBtnEvent] does not check its arguments: only the low 16 bits
    of each key code and the low 32 bits of the state reach the device, so
    two calls whose codes agree modulo 65536 and whose states agree modulo
    2^32 behave alike. *)
Theorem X13_sendBtnEvent_truncates (keys keys' : list Z) (btnState btnState' : Z)
    (w : World K)
    (Hkeys : map uint16 keys = map uint16 keys')
    (Hstate : btnState mod 2 ^ 32 = btnState' mod 2 ^ 32) :
  sendBtnEvent kern keys btnState w = sendBtnEvent kern keys' btnState' w.
Proof.
  assert (Hs : int32 btnState = int32 btnState').
  { unfold int32, to_signed. f_equal.
    change (2 ^ 32) with (2 ^ 32) in Hstate.
    rewrite <- (Zplus_mod_idemp_l btnState), Hstate, Zplus_mod_idemp_l. reflexivity. }
  unfold sendBtnEvent. f_equal. clear w.
  revert keys' Hkeys. induction keys as [|k r IH]; intros [|k' r'] Hkeys;
    try discriminate; [reflexivity|].
  cbn [map] in Hkeys. injection Hkeys as Hk Hr.
  cbn [sendBtnEvent_loop]. rewrite Hk, Hs, (IH r' Hr). reflexivity.
Qed.

End RegistrationProperties.

Lemma X13_sendBtnEvent_truncates_witness :
  map uint16 [1] = map uint16 [65537] /\
  btnStatePressed mod 2 ^ 32 = (btnStatePressed + 2 ^ 32) mod 2 ^ 32 /\
  sendBtnEvent idleKernel [1] btnStatePressed (start 2) =
    sendBtnEvent idleKernel [65537] (btnStatePressed + 2 ^ 32) (start 2).
Proof.
  assert (Hk : map uint16 [1] = map uint16 [65537]) by reflexivity.
  assert (Hs : btnStatePressed mod 2 ^ 32 = (btnStatePressed + 2 ^ 32) mod 2 ^ 32)
    by reflexivity.
  split; [exact Hk|]. split; [exact Hs|].
  exact (X13_sendBtnEvent_truncates idleKernel [1] [65537] btnStatePressed
           (btnStatePressed + 2 ^ 32) (start 2) Hk Hs).
Defined.

Lemma X10_descriptor_wire_format_witness :
  let wire := fst (binary_Write_uinputUserDev sampleDev) in
  wf_uinputUserDev sampleDev /\ in_range_uinputUserDev sampleDev /\ (0 < 64)%nat /\
  length wire = 1116%nat /\
  le_combine (slice 82 2 wire) = 0xDEAD /\
  int32 (le_combine (slice (92 + 4 * 0) 4 wire)) = 800.
Proof.
  intros wire.
  assert (Hi : (0 < 64)%nat) by (repeat constructor).
  split; [exact sampleDev_wf|]. split; [exact sampleDev_in_range|]. split; [exact Hi|].
  pose proof (X10_descriptor_wire_format idleKernel sampleDev (start 0) 0
                sampleDev_wf sampleDev_in_range Hi)
    as (_ & Hl & _ & _ & Hv & _ & _ & _ & Hmax & _).
  split; [exact Hl|]. split; [exact Hv | exact Hmax].
Defined.

(** ** The other union accessors *)

Lemma load_uint32_slice (o n i : nat) (raw : list byte) :
  (i + 4 <= n)%nat -> load_uint32 (slice o n raw) i = load_uint32 raw (o + i).
Proof. intros H. unfold load_uint32. now rewrite slice_slice. Qed.

Lemma load_pointer_slice (o n i : nat) (raw : list byte) :
  (i + 8 <= n)%nat -> load_pointer (slice o n raw) i = load_pointer raw (o + i).
Proof. intros H. unfold load_pointer. now rewrite slice_slice. Qed.

Lemma load_FFEnvelope_slice (o n i : nat) (raw : list byte) :
  (i + 8 <= n)%nat -> load_FFEnvelope (slice o n raw) i = load_FFEnvelope raw (o + i).
Proof.
  intros H. unfold load_FFEnvelope.
  rewrite !load_uint16_slice by lia. now rewrite !Nat.add_assoc.
Qed.

Lemma Constant_of_bytes (raw : list byte) :
  Constant (FFEffect_of_bytes raw) = load_FFConstantEffect (slice 16 10 raw) 0.
Proof.
  unfold Constant, FFEffect_of_bytes, payloadSize, load_FFConstantEffect. cbn [u].
  now rewrite !load_int16_slice, !load_FFEnvelope_slice by lia.
Qed.

Lemma Ramp_of_bytes (raw : list byte) :
  Ramp (FFEffect_of_bytes raw) = load_FFRampEffect (slice 16 12 raw) 0.
Proof.
  unfold Ramp, FFEffect_of_bytes, payloadSize, load_FFRampEffect. cbn [u].
  now rewrite !load_int16_slice, !load_FFEnvelope_slice by lia.
Qed.

Lemma Periodic_of_bytes (raw : list byte) :
  Periodic (FFEffect_of_bytes raw) = load_FFPeriodicEffect (slice 16 32 raw) 0.
Proof. reflexivity. Qed.

(** Reading little-endian fields out of bytes that were laid down field by
    field. *)
Ltac fold_fields :=
  repeat match goal with
  | |- context [le_combine (byte.of_Z ?x :: ?l)] =>
    let n := eval cbn [length] in (S (length l)) in
    change (byte.of_Z x :: l) with (le_split n x);
    rewrite (le_combine_split n x)
  end;
  change (Z.of_nat 2 * 8) with 16; change (Z.of_nat 4 * 8) with 32;
  change (Z.of_nat 8 * 8) with 64.

Lemma le_split_2 (x : Z) : le_split 2 x = [byte.of_Z x; byte.of_Z (Z.shiftr x 8)].
Proof. reflexivity. Qed.

Lemma le_split_4 (x : Z) :
  le_split 4 x = byte.of_Z x :: byte.of_Z (Z.shiftr x 8) :: le_split 2 (Z.shiftr (Z.shiftr x 8) 8).
Proof. reflexivity. Qed.

Lemma le_split_8 (x : Z) :
  le_split 8 x =
    byte.of_Z x :: byte.of_Z (Z.shiftr x 8) ::
    byte.of_Z (Z.shiftr (Z.shiftr x 8) 8) ::
    byte.of_Z (Z.shiftr (Z.shiftr (Z.shiftr x 8) 8) 8) ::
    le_split 4 (Z.shiftr (Z.shiftr (Z.shiftr (Z.shiftr x 8) 8) 8) 8).
Proof. reflexivity. Qed.

Ltac read_fields :=
  rewrite ?le_split_8, ?le_split_4, ?le_split_2;
  cbn [app slice firstn skipn Nat.add]; fold_fields;
  unfold load_int16, int16 in *;
  rewrite ?to_signed_unsigned by (cbn; lia);
  rewrite ?Z.mod_small by lia.

Lemma load_envelope_bytes (e : FFEnvelope) (rest : list byte) :
  wf_FFEnvelope e -> load_FFEnvelope (envelope_bytes e ++ rest) 0 = e.
Proof.
  destruct e as [a b c d]. unfold wf_FFEnvelope, is_uint16. cbn.
  intros (Ha & Hb & Hc & Hd).
  unfold load_FFEnvelope, load_uint16, envelope_bytes.
  cbn [AttackLength AttackLevel FadeLength FadeLevel].
  read_fields. reflexivity.
Qed.

Lemma load_constant_bytes (c : FFConstantEffect.t) :
  wf_FFConstantEffect c -> load_FFConstantEffect (constant_bytes c) 0 = c.
Proof.
  destruct c as [lv [a b c d]]. unfold wf_FFConstantEffect, wf_FFEnvelope, is_uint16, is_int16.
  cbn. intros (Hl & Ha & Hb & Hc & Hd).
  unfold load_FFConstantEffect, load_FFEnvelope, load_uint16, load_int16,
    constant_bytes, envelope_bytes.
  cbn [FFConstantEffect.Level FFConstantEffect.Envelope
       AttackLength AttackLevel FadeLength FadeLevel].
  read_fields. reflexivity.
Qed.

Lemma load_ramp_bytes (r : FFRampEffect.t) :
  wf_FFRampEffect r -> load_FFRampEffect (ramp_bytes r) 0 = r.
Proof.
  destruct r as [s e [a b c d]]. unfold wf_FFRampEffect, wf_FFEnvelope, is_uint16, is_int16.
  cbn. intros (Hs & He & Ha & Hb & Hc & Hd).
  unfold load_FFRampEffect, load_FFEnvelope, load_uint16, load_int16,
    ramp_bytes, envelope_bytes.
  cbn [FFRampEffect.StartLevel FFRampEffect.EndLevel FFRampEffect.Envelope
       AttackLength AttackLevel FadeLength FadeLevel].
  read_fields. reflexivity.
Qed.

Lemma load_periodic_bytes (pad0 pad1 : byte) (p : FFPeriodicEffect.t) :
  wf_FFPeriodicEffect p -> load_FFPeriodicEffect (periodic_bytes pad0 pad1 p) 0 = p.
Proof.
  destruct p as [wv pe mg os ph [a b c d] cl cd].
  unfold wf_FFPeriodicEffect, wf_FFEnvelope, is_uint16, is_int16.
  cbn. intros (Hw & Hp & Hm & Ho & Hph & (Ha & Hb & Hc & Hd) & Hcl & Hcd).
  unfold load_FFPeriodicEffect, load_FFEnvelope, load_uint16, load_int16,
    load_uint32, load_pointer, periodic_bytes, envelope_bytes.
  cbn [FFPeriodicEffect.Waveform FFPeriodicEffect.Period FFPeriodicEffect.Magnitude
       FFPeriodicEffect.Offset FFPeriodicEffect.Phase FFPeriodicEffect.Envelope
       FFPeriodicEffect.CustomLen FFPeriodicEffect.CustomData
       AttackLength AttackLevel FadeLength FadeLevel].
  read_fields. reflexivity.
Qed.

Lemma load_condition_bytes (c : FFConditionEffect) (rest : list byte) :
  wf_FFConditionEffect c -> load_FFConditionEffect (condition_bytes c ++ rest) 0 = c.
Proof.
  destruct c as [rs ls rc lc db ce]. unfold wf_FFConditionEffect, is_uint16, is_int16.
  cbn. intros (H1 & H2 & H3 & H4 & H5 & H6).
  unfold load_FFConditionEffect, load_uint16, load_int16, condition_bytes.
  cbn [RightSaturation LeftSaturation RightCoeff LeftCoeff Deadband Center].
  read_fields. reflexivity.
Qed.

(** X14. A record whose bytes [16:26) hold a constant effect, the signed
    level and the four envelope words little-endian, decodes through
    [Constant] to that effect; the accessor loads these ten bytes and no
    others, on every platform. *)
Theorem X14_Constant_roundtrip (p : Platform) (c : FFConstantEffect.t) (raw raw' : list byte)
    (Hwf : wf_FFConstantEffect c)
    (Hraw : slice 16 10 raw = constant_bytes c) :
  Constant (FFEffect_of_bytes raw) = c /\
  (slice 16 10 raw' = slice 16 10 raw ->
   Constant (FFEffect_of_bytes raw') = Constant (FFEffect_of_bytes raw)) /\
  field_layout p tFFConstantEffect = [("Level", 0, 2); ("Envelope", 2, 8)]%string%nat /\
  load_range p tFFConstantEffect 0 = (16, 26)%nat.
Proof.
  split; [|split; [|split]].
  - rewrite Constant_of_bytes, Hraw. now apply load_constant_bytes.
  - intros H. now rewrite !Constant_of_bytes, H.
  - destruct p as [w [|[|m]]]; reflexivity.
  - rewrite load_range_u. destruct p as [w [|[|m]]]; reflexivity.
Qed.

(** X15. A record whose bytes [16:28) hold a ramp effect, the two signed
    levels and the four envelope words little-endian, decodes through [Ramp]
    to that effect; the accessor loads these twelve bytes and no others, on
    every platform. *)
Theorem X15_Ramp_roundtrip (p : Platform) (r : FFRampEffect.t) (raw raw' : list byte)
    (Hwf : wf_FFRampEffect r)
    (Hraw : slice 16 12 raw = ramp_bytes r) :
  Ramp (FFEffect_of_bytes raw) = r /\
  (slice 16 12 raw' = slice 16 12 raw ->
   Ramp (FFEffect_of_bytes raw') = Ramp (FFEffect_of_bytes raw)) /\
  field_layout p tFFRampEffect =
    [("StartLevel", 0, 2); ("EndLevel", 2, 2); ("Envelope", 4, 8)]%string%nat /\
  load_range p tFFRampEffect 0 = (16, 28)%nat.
Proof.
  split; [|split; [|split]].
  - rewrite Ramp_of_bytes, Hraw. now apply load_ramp_bytes.
  - intros H. now rewrite !Ramp_of_bytes, H.
  - destruct p as [w [|[|m]]]; reflexivity.
  - rewrite load_range_u. destruct p as [w [|[|m]]]; reflexivity.
Qed.

(** X16. On the 64-bit target a periodic effect fills the whole payload: its
    fields lie at payload offsets 0, 2, 4, 6, 8, 10, 20 and 24, with two
    bytes of padding at 18. A record whose bytes [16:48) hold a periodic
    effect in this layout, whatever the two padding bytes, decodes through
    [Periodic] to that effect, the pointer being the 64-bit word of the last
    eight bytes. *)
Theorem X16_Periodic_roundtrip (pad0 pad1 : byte) (e : FFPeriodicEffect.t)
    (raw : list byte)
    (Hwf : wf_FFPeriodicEffect e)
    (Hraw : slice 16 32 raw = periodic_bytes pad0 pad1 e) :
  Periodic (FFEffect_of_bytes raw) = e /\
  field_layout amd64 tFFPeriodicEffect =
    [("Waveform", 0, 2); ("Period", 2, 2); ("Magnitude", 4, 2); ("Offset", 6, 2);
     ("Phase", 8, 2); ("Envelope", 10, 8); ("CustomLen", 20, 4);
     ("CustomData", 24, 8)]%string%nat /\
  load_range amd64 tFFPeriodicEffect 0 = (16, 48)%nat.
Proof.
  split; [|split; reflexivity].
  rewrite Periodic_of_bytes, Hraw. now apply load_periodic_bytes.
Qed.

(** X17. A record whose bytes [16:28) and [32:44) hold two condition
    blocks, six little-endian words each, decodes through [Condition] to
    these two blocks, whatever bytes [28:32) hold. *)
Theorem X17_Condition_roundtrip (c0 c1 : FFConditionEffect) (gap raw : list byte)
    (Hwf0 : wf_FFConditionEffect c0) (Hwf1 : wf_FFConditionEffect c1)
    (Hgap : length gap = 4%nat)
    (Hraw : slice 16 28 raw = condition_bytes c0 ++ gap ++ condition_bytes c1) :
  Condition (FFEffect_of_bytes raw) = (c0, c1).
Proof.
  rewrite Condition_of_bytes.
  assert (H0 : slice 16 12 raw = condition_bytes c0).
  { rewrite <- (slice_slice 16 28 0 12) by lia. rewrite Hraw.
    apply slice_app_0. unfold condition_bytes.
    rewrite !length_app, !length_le_split. reflexivity. }
  assert (H1 : slice 32 12 raw = condition_bytes c1).
  { change 32%nat with (16 + 16)%nat. rewrite <- (slice_slice 16 28 16 12) by lia.
    rewrite Hraw.
    rewrite (slice_app_skip 16 12 12)
      by (try lia; unfold condition_bytes; rewrite !length_app, !length_le_split; reflexivity).
    rewrite (slice_app_skip _ 12 4) by (try exact Hgap; cbn; lia).
    apply slice_all. unfold condition_bytes.
    rewrite !length_app, !length_le_split. reflexivity. }
  rewrite H0, H1.
  rewrite <- (app_nil_r (condition_bytes c0)), <- (app_nil_r (condition_bytes c1)).
  now rewrite !load_condition_bytes.
Qed.

Lemma sampleEnvelope_wf : wf_FFEnvelope sampleEnvelope.
Proof. repeat split; cbv; congruence. Qed.

Lemma X14_Constant_roundtrip_witness :
  wf_FFConstantEffect sampleConstant /\
  slice 16 10 (recordWith (constant_bytes sampleConstant)) = constant_bytes sampleConstant /\
  Constant (FFEffect_of_bytes (recordWith (constant_bytes sampleConstant))) = sampleConstant.
Proof.
  assert (Hwf : wf_FFConstantEffect sampleConstant)
    by (split; [split; cbv; congruence | exact sampleEnvelope_wf]).
  assert (Hraw : slice 16 10 (recordWith (constant_bytes sampleConstant)) =
                   constant_bytes sampleConstant) by reflexivity.
  split; [exact Hwf|]. split; [exact Hraw|].
  exact (proj1 (X14_Constant_roundtrip amd64 sampleConstant _ [] Hwf Hraw)).
Defined.

Lemma X15_Ramp_roundtrip_witness :
  wf_FFRampEffect sampleRamp /\
  slice 16 12 (recordWith (ramp_bytes sampleRamp)) = ramp_bytes sampleRamp /\
  Ramp (FFEffect_of_bytes (recordWith (ramp_bytes sampleRamp))) = sampleRamp.
Proof.
  assert (Hwf : wf_FFRampEffect sampleRamp)
    by (split; [|split; [|exact sampleEnvelope_wf]]; split; cbv; congruence).
  assert (Hraw : slice 16 12 (recordWith (ramp_bytes sampleRamp)) = ramp_bytes sampleRamp)
    by reflexivity.
  split; [exact Hwf|]. split; [exact Hraw|].
  exact (proj1 (X15_Ramp_roundtrip amd64 sampleRamp _ [] Hwf Hraw)).
Defined.

Lemma X16_Periodic_roundtrip_witness :
  wf_FFPeriodicEffect samplePeriodic /\
  slice 16 32 (recordWith (periodic_bytes Byte.xaa Byte.x55 samplePeriodic)) =
    periodic_bytes Byte.xaa Byte.x55 samplePeriodic /\
  Periodic (FFEffect_of_bytes (recordWith (periodic_bytes Byte.xaa Byte.x55 samplePeriodic))) =
    samplePeriodic.
Proof.
  assert (Hwf : wf_FFPeriodicEffect samplePeriodic).
  { repeat split; try exact sampleEnvelope_wf; cbv; congruence. }
  assert (Hraw : slice 16 32 (recordWith (periodic_bytes Byte.xaa Byte.x55 samplePeriodic)) =
                   periodic_bytes Byte.xaa Byte.x55 samplePeriodic) by reflexivity.
  split; [exact Hwf|]. split; [exact Hraw|].
  exact (proj1 (X16_Periodic_roundtrip Byte.xaa Byte.x55 samplePeriodic _ Hwf Hraw)).
Defined.

Lemma X17_Condition_roundtrip_witness :
  let payload := condition_bytes sampleCondition0 ++ repeat Byte.xff 4 ++
                 condition_bytes sampleCondition1 in
  wf_FFConditionEffect sampleCondition0 /\ wf_FFConditionEffect sampleCondition1 /\
  length (repeat Byte.xff 4) = 4%nat /\
  slice 16 28 (recordWith payload) = payload /\
  Condition (FFEffect_of_bytes (recordWith payload)) = (sampleCondition0, sampleCondition1).
Proof.
  intros payload.
  assert (H0 : wf_FFConditionEffect sampleCondition0) by (repeat split; cbv; congruence).
  assert (H1 : wf_FFConditionEffect sampleCondition1) by (repeat split; cbv; congruence).
  assert (Hg : length (repeat Byte.xff 4) = 4%nat) by reflexivity.
  assert (Hraw : slice 16 28 (recordWith payload) =
                   condition_bytes sampleCondition0 ++ repeat Byte.xff 4 ++
                   condition_bytes sampleCondition1) by reflexivity.
  split; [exact H0|]. split; [exact H1|]. split; [exact Hg|]. split; [exact Hraw|].
  exact (X17_Condition_roundtrip sampleCondition0 sampleCondition1 (repeat Byte.xff 4)
           (recordWith payload) H0 H1 Hg Hraw).
Defined.

(** ** The condition blocks *)

(** C6 as stated fails: a condition block is 12 bytes long, not 16. The
    first block does not cover bytes [16:32): two records whose bytes
    [16:32) differ give the same first block. The second block does not
    cover all of [32:48): two records that differ in bytes [44:48) give the
    same pair of blocks. *)
Lemma C6_counterexample :
  sizeof amd64 tFFConditionEffect = 12%nat /\
  slice 16 16 conditionRecordA <> slice 16 16 conditionRecordB /\
  fst (Condition (FFEffect_of_bytes conditionRecordA)) =
    fst (Condition (FFEffect_of_bytes conditionRecordB)) /\
  slice 32 16 conditionRecordA <> slice 32 16 conditionRecordC /\
  Condition (FFEffect_of_bytes conditionRecordA) =
    Condition (FFEffect_of_bytes conditionRecordC).
Proof.
  repeat split; try (cbv; congruence).
Qed.

(** C6, amended. [Condition] returns two condition blocks reinterpreted from
    the payload, each from 12 consecutive bytes of the record, six
    little-endian 16-bit fields at offsets 0, 2, 4, 6, 8 and 10 of the
    block. The first block begins at record byte 16 and covers bytes
    [16:28): whatever block these bytes hold is the first block returned,
    and no other byte of the record bears on it. *)
Theorem C6_Condition_blocks (p : Platform) (c0 : FFConditionEffect) (raw raw' : list byte)
    (Hwf : wf_FFConditionEffect c0)
    (Hraw : slice 16 12 raw = condition_bytes c0) :
  fst (Condition (FFEffect_of_bytes raw)) = c0 /\
  (slice 16 12 raw' = slice 16 12 raw ->
   fst (Condition (FFEffect_of_bytes raw')) = fst (Condition (FFEffect_of_bytes raw))) /\
  (exists off : nat,
     forall (c1 : FFConditionEffect) (rec : list byte),
       wf_FFConditionEffect c1 -> slice off 12 rec = condition_bytes c1 ->
       snd (Condition (FFEffect_of_bytes rec)) = c1) /\
  sizeof p tFFConditionEffect = 12%nat /\
  field_layout p tFFConditionEffect =
    [("RightSaturation", 0, 2); ("LeftSaturation", 2, 2); ("RightCoeff", 4, 2);
     ("LeftCoeff", 6, 2); ("Deadband", 8, 2); ("Center", 10, 2)]%string%nat /\
  load_range p tFFConditionEffect 0 = (16, 28)%nat.
Proof.
  assert (Hload : forall (c : FFConditionEffect) (bs : list byte),
            wf_FFConditionEffect c -> bs = condition_bytes c ->
            load_FFConditionEffect bs 0 = c).
  { intros c bs Hc ->. rewrite <- (app_nil_r (condition_bytes c)).
    now apply load_condition_bytes. }
  split; [|split; [|split; [|split; [|split]]]].
  - rewrite Condition_of_bytes. cbn [fst]. now apply Hload.
  - intros H. rewrite !Condition_of_bytes. cbn [fst]. now rewrite H.
  - exists 32%nat. intros c1 rec Hc1 Hrec.
    rewrite Condition_of_bytes. cbn [snd]. now apply Hload.
  - apply sizeof_FFConditionEffect.
  - destruct p as [w [|[|m]]]; reflexivity.
  - now rewrite load_range_u, sizeof_FFConditionEffect.
Qed.

Lemma C6_Condition_blocks_witness :
  wf_FFConditionEffect sampleCondition0 /\
  slice 16 12 conditionArrayRecord = condition_bytes sampleCondition0 /\
  fst (Condition (FFEffect_of_bytes conditionArrayRecord)) = sampleCondition0.
Proof.
  assert (Hwf : wf_FFConditionEffect sampleCondition0) by (repeat split; cbv; congruence).
  assert (Hraw : slice 16 12 conditionArrayRecord = condition_bytes sampleCondition0)
    by reflexivity.
  split; [exact Hwf|]. split; [exact Hraw|].
  exact (proj1 (C6_Condition_blocks amd64 sampleCondition0 conditionArrayRecord []
                  Hwf Hraw)).
Defined.

(** The second block is loaded at [u[16]], record byte 32, while two
    12-byte elements of an array lie at record bytes 16 and 28. On a record
    that holds two blocks one after the other, the first block comes back
    as it is, and the second block returned is not the second block of the
    record: it starts with the third word of that block. *)
Example Condition_on_array_record :
  fst (Condition (FFEffect_of_bytes conditionArrayRecord)) = sampleCondition0 /\
  snd (Condition (FFEffect_of_bytes conditionArrayRecord)) =
    mkFFConditionEffect 8 65527 10 11 0 0 /\
  snd (Condition (FFEffect_of_bytes conditionArrayRecord)) <> sampleCondition1.
Proof. repeat split; try (vm_compute; reflexivity). vm_compute. discriminate. Qed.

(** ** Control call numbers and request sizes *)

(** X18. The argument size carried by the force-feedback control call
    numbers is the size of the request struct the code passes: 104 bytes
    for the two upload calls and 12 bytes for the two erase calls, on the
    64-bit and on the 32-bit target alike; and each upload request holds its
    two effect records at offsets 8 and 56. *)
Theorem X18_request_sizes :
  ioc_size uiBeginFFUpload = Z.of_nat (sizeof amd64 tUInputFFUpload) /\
  ioc_size uiEndFFUpload = Z.of_nat (sizeof amd64 tUInputFFUpload) /\
  ioc_size uiBeginFFErase = Z.of_nat (sizeof amd64 tUInputFFErase) /\
  ioc_size uiEndFFErase = Z.of_nat (sizeof amd64 tUInputFFErase) /\
  sizeof amd64 tUInputFFUpload = 104%nat /\ sizeof i386 tUInputFFUpload = 104%nat /\
  sizeof amd64 tUInputFFErase = 12%nat /\ sizeof i386 tUInputFFErase = 12%nat /\
  field_layout amd64 tUInputFFUpload =
    [("RequestID", 0, 4); ("ReturnValue", 4, 4); ("Effect", 8, 48);
     ("OldEffect", 56, 48)]%string%nat.
Proof. repeat split; reflexivity. Qed.
